(** * Metropolis sampling of a two-parameter Bernoulli posterior

    A shallow embedding of [08_BernTwoMetropolis.py]: the target density, the
    random-walk loop with its trajectory array and counters, and the
    inferences drawn from the post-burn-in sample.

    Numbers are IEEE-754 binary64 values, as NumPy's [float64] and Python's
    [float] are: the Standard Library's [spec_float] with the operations of
    [SpecFloat] at precision 53 and maximal exponent 1024 (round to nearest,
    ties to even; infinities, signed zeros and NaN included, NaN payloads
    not).  Routines of NumPy and SciPy whose code is not part of the script
    ([scipy.stats.beta.pdf], the random generator) are parameters of the
    development; [np.mean], [np.std] and [np.percentile] follow their
    documented definitions. *)

From Stdlib Require Import ZArith Bool List Lia SpecFloat QArith Qround Lqa.
From stdpp Require Import base option list sorting.

Open Scope Z_scope.

(** ** Binary64 arithmetic *)

Module F64.

Definition prec : Z := 53.
Definition emax : Z := 1024.

Definition add := SFadd prec emax.
Definition sub := SFsub prec emax.
Definition mul := SFmul prec emax.
Definition div := SFdiv prec emax.
Definition sqrt := SFsqrt prec emax.
Definition ltb := SFltb.
Definition leb := SFleb.
Definition eqb := SFeqb.

(** An integer converted to the nearest binary64 value. *)
Definition of_Z (z : Z) : spec_float := binary_normalize prec emax z 0 false.

(** A decimal literal [m / 10^k] of the script, such as [.1] or [0.95]:
    the binary64 value nearest to it, which is the correctly rounded
    quotient of the two integers (both are exact in binary64). *)
Definition dec (m : Z) (k : nat) : spec_float :=
  div (of_Z m) (of_Z (10 ^ Z.of_nat k)).

Definition zero : spec_float := S754_zero false.
Definition one : spec_float := Eval vm_compute in of_Z 1.
Definition half : spec_float := dec 5 1.

Definition isnan (x : spec_float) : bool :=
  match x with S754_nan => true | _ => false end.

(** [x ** n] for a small non-negative integer exponent, as a product of
    [n] factors. *)
Fixpoint pow (x : spec_float) (n : nat) : spec_float :=
  match n with
  | O => one
  | S O => x
  | S n' => mul (pow x n') x
  end.

(** The integer value of a finite float rounded towards plus infinity
    ([np.ceil(x).astype(int)]) and towards minus infinity. *)
Definition ceil (x : spec_float) : Z :=
  match x with
  | S754_finite s m e =>
      let v := if s then Z.neg m else Z.pos m in
      if 0 <=? e then v * 2 ^ e else - ((- v) / 2 ^ (- e))
  | _ => 0
  end.

Definition floor (x : spec_float) : Z :=
  match x with
  | S754_finite s m e =>
      let v := if s then Z.neg m else Z.pos m in
      if 0 <=? e then v * 2 ^ e else v / 2 ^ (- e)
  | _ => 0
  end.

End F64.

Declare Scope f64_scope.
Delimit Scope f64_scope with f64.
Infix "+" := F64.add : f64_scope.
Infix "-" := F64.sub : f64_scope.
Infix "*" := F64.mul : f64_scope.
Infix "/" := F64.div : f64_scope.
Infix "**" := F64.pow (at level 30, right associativity) : f64_scope.
Infix "<?" := F64.ltb : f64_scope.
Infix "<=?" := F64.leb : f64_scope.
Infix "=?" := F64.eqb : f64_scope.

(** ** Values and arrays of the script *)

(** A parameter vector [theta = [theta1, theta2]]: one row of the
    trajectory array. *)
Definition vec : Type := spec_float * spec_float.

Definition vadd (a b : vec) : vec := ((a.1 + b.1)%f64, (a.2 + b.2)%f64).

(** A density value is either a Python [float] (the literal [0.0]) or a
    NumPy [float64] scalar (anything computed from array elements).  Both
    hold a binary64 number; they differ in what division by zero does. *)
Inductive scalar : Type :=
  | PyFloat (x : spec_float)
  | Float64 (x : spec_float).

Definition value (s : scalar) : spec_float :=
  match s with PyFloat x | Float64 x => x end.

(** [a / b] under [from __future__ import division].  Two Python floats
    raise [ZeroDivisionError] when the divisor is zero; as soon as one
    operand is a [float64], NumPy divides by IEEE rules (with a warning
    only). *)
Definition true_divide (a b : scalar) : option spec_float :=
  match a, b with
  | PyFloat x, PyFloat y =>
      if (y =? F64.zero)%f64 then None else Some (x / y)%f64
  | _, _ => Some (value a / value b)%f64
  end.

(** [np.minimum(a, b)]: the smaller operand, and NaN as soon as one of the
    two is NaN. *)
Definition np_minimum (a b : spec_float) : spec_float :=
  if (a <=? b)%f64 || F64.isnan a then a else b.

(** Zero of either sign, or NaN: what a product with a zero factor is. *)
Definition vanishing (x : spec_float) : bool :=
  match x with S754_zero _ | S754_nan => true | _ => false end.

(** [a[i]] and [a[i] = v] on the first axis of an array: an index outside
    the array raises [IndexError]. *)
Definition getitem {A} (a : list A) (i : nat) : option A := a !! i.

Definition setitem {A} (a : list A) (i : nat) (v : A) : option (list A) :=
  if decide (i < length a)%nat then Some (<[i:=v]> a) else None.

(** [np.zeros((n, 2))] *)
Definition np_zeros (n : nat) : list vec := replicate n (F64.zero, F64.zero).

(** ** The routines of SciPy and NumPy the script calls

    [scipy.stats.beta.pdf x a b], and NumPy's global random generator: its
    state, [np.random.seed], [np.random.multivariate_normal(mean, cov)] and
    [np.random.rand()].  Each draw returns a value and the state the
    generator is left in. *)
Record library : Type := Library {
  beta_pdf : spec_float -> spec_float -> spec_float -> spec_float;
  rng : Type;
  np_random_seed : Z -> rng;
  multivariate_normal : vec -> vec * vec -> rng -> vec * rng;
  np_random_rand : rng -> spec_float * rng
}.

(** ** The target density *)

Section Target.

Variable E : library.

Definition likelihood (theta : vec) : spec_float :=
  let '(z1, N1, z2, N2) := (5, 7, 2, 7)%nat in
  (theta.1 ** z1 * (F64.one - theta.1) ** (N1 - z1)
   * theta.2 ** z2 * (F64.one - theta.2) ** (N2 - z2))%f64.

Definition prior (theta : vec) : spec_float :=
  let '(a1, b1, a2, b2) := (F64.of_Z 3, F64.of_Z 3, F64.of_Z 3, F64.of_Z 3) in
  (beta_pdf E theta.1 a1 b1 * beta_pdf E theta.2 a2 b2)%f64.

(** [(theta >= 0.0).all() & (theta <= 1.0).all()] *)
Definition in_domain (theta : vec) : bool :=
  ((F64.zero <=? theta.1)%f64 && (F64.zero <=? theta.2)%f64)
  && ((theta.1 <=? F64.one)%f64 && (theta.2 <=? F64.one)%f64).

Definition target_rel_prob (theta : vec) : scalar :=
  if in_domain theta
  then Float64 (likelihood theta * prior theta)%f64
  else PyFloat F64.zero.

(** The number held by a density value. *)
Definition density (theta : vec) : spec_float :=
  value (target_rel_prob theta).

End Target.

(** ** The Metropolis random walk *)

(** What the loop reads and writes. *)
Record state (rng : Type) : Type := State {
  trajectory : list vec;
  n_accepted : nat;
  n_rejected : nat;
  generator : rng
}.
Arguments State {rng} _ _ _ _.
Arguments trajectory {rng} _.
Arguments n_accepted {rng} _.
Arguments n_rejected {rng} _.
Arguments generator {rng} _.

(** [for x in xs: body], where the body may raise. *)
Fixpoint for_each {S X} (body : S -> X -> option S) (xs : list X) (s : S)
  : option S :=
  match xs with
  | [] => Some s
  | x :: xs' => s' ← body s x; for_each body xs' s'
  end.

(** The constants of the script that a run depends on: the length of the
    trajectory, where it starts, the burn-in index and the seed. *)
Record config : Type := Config {
  traj_length : nat;
  start : vec;
  burn_in : Z;
  seed : Z
}.

Section Sampler.

Variable E : library.
Variable C : config.

(** [n_dim, sd1, sd2 = 2, 0.2, 0.2] and the covariance matrix *)
Definition sd1 : spec_float := F64.dec 2 1.
Definition sd2 : spec_float := F64.dec 2 1.
Definition covar_mat : vec * vec :=
  (((sd1 ** 2)%f64, F64.zero), (F64.zero, (sd2 ** 2)%f64)).

(** The state before the loop: the zeroed array with its first row set,
    the counters at zero, the generator seeded. *)
Definition initial : option (state (rng E)) :=
  traj ← setitem (np_zeros (traj_length C)) 0 (start C);
  Some (State traj 0 0 (np_random_seed E (seed C))).

(** The outcome of one proposal at [current_position]: the proposed
    position, the acceptance probability and whether the uniform draw
    fell below it, with the generator after both draws. *)
Definition propose (current_position : vec) (g : rng E)
  : option (vec * spec_float * bool * rng E) :=
  let '(proposed_jump, g1) :=
    multivariate_normal E (F64.zero, F64.zero) covar_mat g in
  ratio ← true_divide
            (target_rel_prob E (vadd current_position proposed_jump))
            (target_rel_prob E current_position);
  let prob_accept := np_minimum F64.one ratio in
  let '(u, g2) := np_random_rand E g1 in
  Some (vadd current_position proposed_jump, prob_accept,
        (u <? prob_accept)%f64, g2).

(** The body of [for step in range(traj_length-1)]. *)
Definition metropolis_step (st : state (rng E)) (step : nat)
  : option (state (rng E)) :=
  current_position ← getitem (trajectory st) step;
  outcome ← propose current_position (generator st);
  let '(proposed, _, accept, g) :=
    (outcome : vec * spec_float * bool * rng E) in
  if accept then
    traj ← setitem (trajectory st) (step + 1) proposed;
    Some (State traj
            (if (burn_in C <? Z.of_nat step)%Z
             then (n_accepted st + 1)%nat else n_accepted st)
            (n_rejected st) g)
  else
    traj ← setitem (trajectory st) (step + 1) current_position;
    Some (State traj (n_accepted st)
            (if (burn_in C <? Z.of_nat step)%Z
             then (n_rejected st + 1)%nat else n_rejected st)
            g).

(** The loop run on the first [n] step indices, and the whole walk. *)
Definition walk (n : nat) : option (state (rng E)) :=
  st ← initial; for_each metropolis_step (seq 0 n) st.

Definition metropolis : option (state (rng E)) :=
  walk (traj_length C - 1).

(** *** The walk read off the generator

    What one step draws from a generator state [g], in the order of the
    loop body: the proposal vector first, the uniform value from the state
    the first draw leaves behind. *)
Definition jump_of (g : rng E) : vec :=
  (multivariate_normal E (F64.zero, F64.zero) covar_mat g).1.

Definition after_jump (g : rng E) : rng E :=
  (multivariate_normal E (F64.zero, F64.zero) covar_mat g).2.

Definition uniform_of (g : rng E) : spec_float :=
  (np_random_rand E (after_jump g)).1.

Definition after_step (g : rng E) : rng E :=
  (np_random_rand E (after_jump g)).2.

(** The generator state that step [step] starts from. *)
Definition generator_at (step : nat) : rng E :=
  Nat.iter step after_step (np_random_seed E (seed C)).

(** The Metropolis rule with IEEE division: whether the proposal drawn at
    [g] is accepted from [current], and the next position. *)
Definition accepts (current : vec) (g : rng E) : bool :=
  (uniform_of g
   <? np_minimum F64.one
        (density E (vadd current (jump_of g)) / density E current))%f64.

Definition next_position (current : vec) (g : rng E) : vec :=
  if accepts current g then vadd current (jump_of g) else current.

Fixpoint chain (step : nat) : vec :=
  match step with
  | O => start C
  | S k => next_position (chain k) (generator_at k)
  end.

(** The counters after the steps [0 .. n-1]. *)
Fixpoint tally (n : nat) : nat * nat :=
  match n with
  | O => (0, 0)%nat
  | S k =>
      let '(acc, rej) := tally k in
      if (burn_in C <? Z.of_nat k)%Z then
        if accepts (chain k) (generator_at k)
        then (acc + 1, rej)%nat else (acc, rej + 1)%nat
      else (acc, rej)
  end.

(** The array after the steps [0 .. n-1]: the rows written so far, then
    the zeros the array was created with. *)
Definition array_after (n : nat) : list vec :=
  (chain <$> seq 0 (S n))
  ++ replicate (traj_length C - S n) (F64.zero, F64.zero).

End Sampler.

(** ** Two runs side by side

    Two generators make the same draws from a seed when a relation between
    their states holds after seeding and is kept by every draw, the values
    drawn being equal.  Two runs agree when both fail or both end with the
    same trajectory and counters, in related generator states. *)
Record same_draws (E1 E2 : library) (s : Z)
    (R : rng E1 -> rng E2 -> Prop) : Prop := SameDraws {
  same_density : ∀ x a b, beta_pdf E1 x a b = beta_pdf E2 x a b;
  same_seed : R (np_random_seed E1 s) (np_random_seed E2 s);
  same_normal : ∀ mean cov g1 g2, R g1 g2 →
    (multivariate_normal E1 mean cov g1).1
    = (multivariate_normal E2 mean cov g2).1
    ∧ R (multivariate_normal E1 mean cov g1).2
        (multivariate_normal E2 mean cov g2).2;
  same_rand : ∀ g1 g2, R g1 g2 →
    (np_random_rand E1 g1).1 = (np_random_rand E2 g2).1
    ∧ R (np_random_rand E1 g1).2 (np_random_rand E2 g2).2
}.

Definition same_state {G1 G2} (R : G1 -> G2 -> Prop)
    (st1 : state G1) (st2 : state G2) : Prop :=
  trajectory st1 = trajectory st2
  ∧ n_accepted st1 = n_accepted st2
  ∧ n_rejected st1 = n_rejected st2
  ∧ R (generator st1) (generator st2).

Definition same_outcome {A B} (R : A -> B -> Prop)
    (x : option A) (y : option B) : Prop :=
  match x, y with
  | Some a, Some b => R a b
  | None, None => True
  | _, _ => False
  end.

(** ** NumPy reductions used on the sample *)

(** [a[i:]] on the first axis; a negative [i] counts from the end. *)
Definition slice_from {A} (a : list A) (i : Z) : list A :=
  if 0 <=? i then drop (Z.to_nat i) a
  else drop (Z.to_nat (Z.of_nat (length a) + i)) a.


(** Sums run in index order.  NumPy may add the terms of a long array in
    another order, which moves the result by rounding only. *)
Definition np_sum (xs : list spec_float) : spec_float :=
  match xs with
  | [] => F64.zero
  | x :: xs' => foldl F64.add x xs'
  end.

Definition np_mean (xs : list spec_float) : spec_float :=
  (np_sum xs / F64.of_Z (Z.of_nat (length xs)))%f64.

(** NumPy's variance with [ddof] delta degrees of freedom: the squared
    deviations from the mean, summed and divided by [n - ddof]. *)
Definition np_var (ddof : Z) (xs : list spec_float) : spec_float :=
  let arrmean := np_mean xs in
  let x := (λ v, v - arrmean)%f64 <$> xs in
  let x := (λ v, v * v)%f64 <$> x in
  (np_sum x / F64.of_Z (Z.max (Z.of_nat (length xs) - ddof) 0))%f64.

(** [np.std(xs)]; [ddof] defaults to [0]. *)
Definition np_std (xs : list spec_float) : spec_float :=
  F64.sqrt (np_var 0 xs).

(** ** Percentiles and the density threshold

    [np.percentile] and the selection of the points above the waterline use
    the numbers through a few operations only; they are written once over
    these operations and run on binary64 in the script. *)

Record arith (F : Type) : Type := Arith {
  ar_of_Z : Z -> F;
  ar_add : F -> F -> F;
  ar_sub : F -> F -> F;
  ar_mul : F -> F -> F;
  ar_div : F -> F -> F;
  ar_leb : F -> F -> bool;
  ar_ltb : F -> F -> bool;
  ar_floor : F -> Z;
  ar_isnan : F -> bool;
  ar_nan : F
}.
Arguments Arith {F} _ _ _ _ _ _ _ _ _ _.
Arguments ar_of_Z {F} _ _.
Arguments ar_add {F} _ _ _.
Arguments ar_sub {F} _ _ _.
Arguments ar_mul {F} _ _ _.
Arguments ar_div {F} _ _ _.
Arguments ar_leb {F} _ _ _.
Arguments ar_ltb {F} _ _ _.
Arguments ar_floor {F} _ _.
Arguments ar_isnan {F} _ _.
Arguments ar_nan {F} _.

Definition binary64 : arith spec_float :=
  Arith F64.of_Z F64.add F64.sub F64.mul F64.div F64.leb F64.ltb
        F64.floor F64.isnan S754_nan.

(** Exact rational arithmetic, in which nothing is rounded and no value is
    NaN. *)
Definition Qltb (x y : Q) : bool := negb (Qle_bool y x).

Definition rational : arith Q :=
  Arith inject_Z Qplus Qminus Qmult Qdiv Qle_bool Qltb Qfloor
        (λ _, false) 0%Q.


Section Percentile.

Context {F : Type} (A : arith F).

Definition ar_le (x y : F) : Prop := ar_leb A x y = true.

#[global] Instance ar_le_dec x y : Decision (ar_le x y).
Proof. unfold ar_le. apply _. Defined.

(** [np.percentile(a, q)] with the default linear interpolation: the
    value at the position [q/100 * (n-1)] of the sorted data, interpolated
    between its two neighbours.  A [q] outside [0, 100] raises
    [ValueError]; an empty array has no percentile; data with a NaN give
    NaN. *)
Definition np_percentile (a : list F) (q : F) : option F :=
  let n := Z.of_nat (length a) in
  let quantile := ar_div A q (ar_of_Z A 100) in
  if negb (ar_leb A (ar_of_Z A 0) quantile
           && ar_leb A quantile (ar_of_Z A 1)) then None
  else if bool_decide (a = []) then None
  else if existsb (ar_isnan A) a then Some (ar_nan A)
  else
    let sorted := merge_sort ar_le a in
    let index := ar_mul A quantile (ar_of_Z A (n - 1)) in
    let previous := ar_floor A index in
    let next := Z.min (previous + 1) (n - 1) in
    let gamma := ar_sub A index (ar_of_Z A previous) in
    lo ← sorted !! Z.to_nat previous;
    hi ← sorted !! Z.to_nat next;
    Some (ar_add A lo (ar_mul A (ar_sub A hi lo) gamma)).


End Percentile.

(** ** Inferences from the sample *)

Section Summary.

Variable E : library.

(** The trajectory left by the loop and the burn-in index. *)
Variable trajectory : list vec.
Variable burn_in : Z.

Definition accepted_traj : list vec := slice_from trajectory burn_in.

Definition mean_traj : vec :=
  (np_mean accepted_traj.*1, np_mean accepted_traj.*2).

Definition stdTraj : vec :=
  (np_std accepted_traj.*1, np_std accepted_traj.*2).

(** One component of [a] and of [b]: the parameters of the beta
    distribution that has mean [m] and standard deviation [s]. *)
Definition beta_a (m s : spec_float) : spec_float :=
  (m * ((m * (F64.one - m) / s ** 2) - F64.one))%f64.

Definition beta_b (m s : spec_float) : spec_float :=
  ((F64.one - m) * ((m * (F64.one - m) / s ** 2) - F64.one))%f64.

Definition a : vec :=
  (beta_a mean_traj.1 stdTraj.1, beta_a mean_traj.2 stdTraj.2).

Definition b : vec :=
  (beta_b mean_traj.1 stdTraj.1, beta_b mean_traj.2 stdTraj.2).



Definition post_prob : list spec_float :=
  (λ pt, value (target_rel_prob E pt)) <$> accepted_traj.






End Summary.

(** ** The script with its constants *)

(** [np.ceil(.1 * traj_length).astype(int)] *)
Definition burn_in_of (traj_length : nat) : Z :=
  F64.ceil (F64.dec 1 1 * F64.of_Z (Z.of_nat traj_length))%f64.

Definition script : config :=
  {| traj_length := 5000;
     start := (F64.dec 50 2, F64.dec 50 2);
     burn_in := burn_in_of 5000;
     seed := 47405 |}.

(** ** A small generator and a beta density to run the script on

    The Beta(3,3) density [30 x^2 (1-x)^2] on [[0,1]], and a generator that
    cycles through a table of proposal vectors and of uniform values. *)

Definition beta33 (x a b : spec_float) : spec_float :=
  if ((F64.zero <=? x) && (x <=? F64.one))%f64
  then (F64.of_Z 30 * x ** 2 * (F64.one - x) ** 2)%f64
  else F64.zero.

Definition table_jumps : list vec :=
  [ (F64.dec 1 1, F64.dec (-1) 1);
    (F64.dec (-3) 1, F64.dec 2 1);
    (F64.dec 6 1, F64.dec 0 1);
    (F64.dec (-5) 2, F64.dec 5 2) ].

Definition table_uniforms : list spec_float :=
  [ F64.dec 5 1; F64.dec 1 2; F64.dec 9 1 ].

Definition table_library : library :=
  {| beta_pdf := beta33;
     rng := nat;
     np_random_seed := λ _, 0%nat;
     multivariate_normal := λ _ _ g,
       (nth ((g / 2) `mod` 4) table_jumps (F64.zero, F64.zero), S g);
     np_random_rand := λ g,
       (nth ((g / 2) `mod` 3) table_uniforms F64.zero, S g) |}.

(** The same generator started one period of its tables later: it makes
    the same draws from other states. *)
Definition shifted_library : library :=
  {| beta_pdf := beta33;
     rng := nat;
     np_random_seed := λ _, 24%nat;
     multivariate_normal := multivariate_normal table_library;
     np_random_rand := np_random_rand table_library |}.

Definition shifted (g1 g2 : nat) : Prop := g2 = (g1 + 24)%nat.

(** The script shortened to eight rows, on which the loop is quickly run. *)
Definition short_script : config :=
  {| traj_length := 8;
     start := (F64.dec 50 2, F64.dec 50 2);
     burn_in := burn_in_of 8;
     seed := 47405 |}.

(** Two rows and a start on the edge of the domain, where the target
    density is zero. *)
Definition edge_start : config :=
  {| traj_length := 2;
     start := (F64.zero, F64.dec 50 2);
     burn_in := burn_in_of 2;
     seed := 47405 |}.

(** ** The labels of the figures

    [len(accepted_traj)] is shown as the number of proposals, and
    [n_accepted/len(accepted_traj)] as the acceptance rate.  The quotient
    of two Python integers raises [ZeroDivisionError] on a zero divisor and
    is the binary64 value nearest to the quotient otherwise (both integers
    being far below [2^53] here). *)
Definition int_true_divide (x y : Z) : option spec_float :=
  if y =? 0 then None else Some (F64.of_Z x / F64.of_Z y)%f64.

Definition N_pro (accepted_traj : list vec) : nat := length accepted_traj.

Definition acceptance_rate (n_accepted : nat) (accepted_traj : list vec)
  : option spec_float :=
  int_true_divide (Z.of_nat n_accepted) (Z.of_nat (length accepted_traj)).

(** Equality of binary64 values and of rows can be decided. *)
#[global] Instance spec_float_eq_dec : EqDecision spec_float.
Proof. solve_decision. Defined.

(** Zero, a positive number, plus infinity or NaN: what rounding a value
    that is not negative gives. *)
Definition unsigned (x : spec_float) : Prop :=
  x = S754_nan ∨ x = S754_zero false ∨ x = S754_infinity false
  ∨ ∃ m e, x = S754_finite false m e.

(** Neither an infinity nor NaN. *)
Definition is_finite (x : spec_float) : bool :=
  match x with S754_zero _ | S754_finite _ _ _ => true | _ => false end.

(** * Properties *)

(** ** Signs and comparisons of binary64 values *)

Lemma positive_shape x :
  (F64.zero <? x)%f64 = true →
  x = S754_infinity false ∨ ∃ m e, x = S754_finite false m e.
Proof. destruct x as [[]|[]| |[] m e]; cbn; try discriminate; eauto. Qed.

Lemma positive_not_vanishing x :
  (F64.zero <? x)%f64 = true → vanishing x = false.
Proof. intros [->|(m & e & ->)]%positive_shape; reflexivity. Qed.

Lemma binary_round_aux_shape s m e l :
  let r := binary_round_aux F64.prec F64.emax s m e l in
  r = S754_nan ∨ r = S754_zero s ∨ r = S754_infinity s
  ∨ ∃ m' e', r = S754_finite s m' e'.
Proof.
  unfold binary_round_aux.
  destruct (shr_fexp _ _ m e l) as [mrs' e'].
  destruct (shr_fexp _ _ _ e' loc_Exact) as [mrs'' e''].
  destruct (shr_m mrs'') as [|p|p]; cbn; eauto.
  destruct (_ <=? _)%Z; eauto 6.
Qed.

Lemma div_positive p c :
  (F64.zero <? p / c)%f64 = true → (F64.zero <? c)%f64 = true →
  (F64.zero <? p)%f64 = true.
Proof.
  intros Hq [->|(m & e & ->)]%positive_shape; revert Hq.
  - destruct p as [[]|[]| |[] mp ep]; cbn; congruence.
  - destruct p as [[]|[]| |[] mp ep]; cbn; try congruence.
    unfold F64.div, SFdiv.
    destruct (SFdiv_core_binary _ _ _ _ _ _) as [[mz ez] lz].
    destruct (binary_round_aux_shape true mz ez lz)
      as [->|[->|[->|(m' & e' & ->)]]]; cbn; congruence.
Qed.

Lemma minimum_positive u r :
  (u <? np_minimum F64.one r)%f64 = true → (F64.zero <=? u)%f64 = true →
  (F64.zero <? r)%f64 = true.
Proof.
  unfold np_minimum. destruct (F64.one <=? r)%f64 eqn:Hr; cbn.
  - intros _ _. revert Hr.
    destruct r as [[]|[]| |[] m e]; cbn; congruence.
  - destruct u as [[]|[]| |[] mu eu], r as [[]|[]| |[] m e];
      cbn; congruence.
Qed.

Lemma mul_vanishing_l x y : vanishing x = true → vanishing (x * y)%f64 = true.
Proof. destruct x as [[]|[]| |[] m e], y as [[]|[]| |[] m' e']; cbn; congruence. Qed.

Lemma mul_vanishing_r x y : vanishing y = true → vanishing (x * y)%f64 = true.
Proof. destruct x as [[]|[]| |[] m e], y as [[]|[]| |[] m' e']; cbn; congruence. Qed.

Lemma pow_vanishing x n :
  vanishing x = true → (0 < n)%nat → vanishing (x ** n)%f64 = true.
Proof.
  intros Hx. induction n as [|[|n] IH]; intros Hn; [lia|done|].
  change (vanishing ((x ** S n) * x)%f64 = true). by apply mul_vanishing_r.
Qed.

Lemma eqb_zero_vanishing x :
  (x =? F64.zero)%f64 = true → vanishing x = true.
Proof. destruct x as [[]|[]| |[] m e]; cbn; congruence. Qed.

Lemma eqb_one_sub_vanishing x :
  (x =? F64.one)%f64 = true → vanishing (F64.one - x)%f64 = true.
Proof.
  intros Hx.
  assert (x = F64.one) as ->; [|by vm_compute].
  destruct x as [[]|[]| |[] m e]; try discriminate Hx.
  unfold F64.eqb, SFeqb, F64.one, SFcompare in Hx.
  destruct (e ?= -52)%Z eqn:He; try discriminate Hx.
  apply Z.compare_eq in He as ->.
  destruct (Pos.compare_cont Eq m 4503599627370496) eqn:Hm;
    try discriminate Hx.
  by apply Pos.compare_eq in Hm as ->.
Qed.

(** ** The target density *)

Section TargetFacts.

Variable E : library.

Lemma density_outside theta :
  in_domain theta = false → target_rel_prob E theta = PyFloat F64.zero.
Proof. unfold target_rel_prob. by intros ->. Qed.

Lemma density_positive_inside theta :
  (F64.zero <? density E theta)%f64 = true →
  in_domain theta = true
  ∧ target_rel_prob E theta = Float64 (likelihood theta * prior E theta)%f64.
Proof.
  unfold density, target_rel_prob.
  destruct (in_domain theta); [done|]. cbn. discriminate.
Qed.

Lemma likelihood_vanishing theta :
  vanishing theta.1 = true ∨ vanishing (F64.one - theta.1)%f64 = true
  ∨ vanishing theta.2 = true ∨ vanishing (F64.one - theta.2)%f64 = true →
  vanishing (likelihood theta) = true.
Proof.
  unfold likelihood. cbn [Nat.sub].
  intros [H|[H|[H|H]]].
  - do 3 apply mul_vanishing_l. apply pow_vanishing; [done|lia].
  - do 2 apply mul_vanishing_l. apply mul_vanishing_r.
    apply pow_vanishing; [done|lia].
  - apply mul_vanishing_l, mul_vanishing_r. apply pow_vanishing; [done|lia].
  - apply mul_vanishing_r. apply pow_vanishing; [done|lia].
Qed.

(** A point of positive density has no coordinate equal to 0 or to 1. *)
Lemma density_positive_interior theta c :
  (F64.zero <? density E theta)%f64 = true →
  c = theta.1 ∨ c = theta.2 →
  (c =? F64.zero)%f64 = false ∧ (c =? F64.one)%f64 = false.
Proof.
  intros Hpos Hc.
  destruct (density_positive_inside _ Hpos) as [_ Heq].
  apply positive_not_vanishing in Hpos.
  unfold density in Hpos. rewrite Heq in Hpos. cbn [value] in Hpos.
  assert (vanishing (likelihood theta) = false) as Hl.
  { destruct (vanishing (likelihood theta)) eqn:Hv; [|done].
    by rewrite (mul_vanishing_l _ (prior E theta) Hv) in Hpos. }
  split.
  - destruct (c =? F64.zero)%f64 eqn:Hz; [|done].
    apply eqb_zero_vanishing in Hz.
    rewrite likelihood_vanishing in Hl; [done|].
    destruct Hc as [->| ->]; auto.
  - destruct (c =? F64.one)%f64 eqn:Hz; [|done].
    apply eqb_one_sub_vanishing in Hz.
    rewrite likelihood_vanishing in Hl; [done|].
    destruct Hc as [->| ->]; auto.
Qed.

End TargetFacts.

(** ** Arrays and loops *)

Lemma for_each_snoc {S X} (body : S → X → option S) xs x s :
  for_each body (xs ++ [x]) s = s' ← for_each body xs s; body s' x.
Proof.
  revert s. induction xs as [|y xs IH]; intros s; cbn.
  - by destruct (body s x).
  - destruct (body s y) as [s'|]; cbn; [apply IH|done].
Qed.

Lemma setitem_Some {A} (a : list A) i v :
  (i < length a)%nat → setitem a i v = Some (<[i:=v]> a).
Proof. intros Hi. unfold setitem. by rewrite decide_True. Qed.

(** ** The random walk *)

Section SamplerFacts.

Variable E : library.
Variable C : config.

(** The uniform draws are not negative, the walk starts at a point of
    positive density, and the array has a first row. *)
Hypothesis rand_nonnegative :
  ∀ g, (F64.zero <=? (np_random_rand E g).1)%f64 = true.
Hypothesis start_positive : (F64.zero <? density E (start C))%f64 = true.
Hypothesis length_positive : (0 < traj_length C)%nat.

Lemma accepts_positive current g :
  (F64.zero <? density E current)%f64 = true →
  accepts E current g = true →
  (F64.zero <? density E (vadd current (jump_of E g)))%f64 = true.
Proof.
  intros Hc Hacc. unfold accepts in Hacc.
  apply minimum_positive in Hacc; [|apply rand_nonnegative].
  exact (div_positive _ _ Hacc Hc).
Qed.

Lemma next_position_positive current g :
  (F64.zero <? density E current)%f64 = true →
  (F64.zero <? density E (next_position E current g))%f64 = true.
Proof.
  intros Hc. unfold next_position.
  destruct (accepts E current g) eqn:Hacc; [|done].
  by apply accepts_positive.
Qed.

Lemma chain_positive k : (F64.zero <? density E (chain E C k))%f64 = true.
Proof.
  induction k as [|k IH]; cbn; [done|]. by apply next_position_positive.
Qed.

Lemma propose_positive current g :
  (F64.zero <? density E current)%f64 = true →
  propose E current g
  = Some (vadd current (jump_of E g),
          np_minimum F64.one
            (density E (vadd current (jump_of E g)) / density E current)%f64,
          accepts E current g, after_step E g).
Proof.
  intros Hc. destruct (density_positive_inside _ _ Hc) as [_ Heq].
  unfold propose, accepts, uniform_of, after_step, after_jump, jump_of,
    density.
  destruct (multivariate_normal E _ _ g) as [jump g1]; cbn [fst snd].
  rewrite Heq.
  destruct (target_rel_prob E (vadd current jump)) as [p|p];
    cbn [true_divide value mbind option_bind];
    by destruct (np_random_rand E g1) as [u g2].
Qed.

Lemma array_after_length n :
  (n < traj_length C)%nat → length (array_after E C n) = traj_length C.
Proof.
  intros Hn. unfold array_after.
  rewrite length_app, length_fmap, length_seq, length_replicate. lia.
Qed.

Lemma array_after_lookup n i :
  (i ≤ n)%nat → array_after E C n !! i = Some (chain E C i).
Proof.
  intros Hi. unfold array_after.
  rewrite lookup_app_l by (rewrite length_fmap, length_seq; lia).
  rewrite list_lookup_fmap, lookup_seq_lt by lia. done.
Qed.

Lemma array_after_zeros n i :
  (n < i < traj_length C)%nat →
  array_after E C n !! i = Some (F64.zero, F64.zero).
Proof.
  intros Hi. unfold array_after.
  rewrite lookup_app_r by (rewrite length_fmap, length_seq; lia).
  rewrite length_fmap, length_seq. apply lookup_replicate_2. lia.
Qed.

Lemma array_after_insert n :
  (S n < traj_length C)%nat →
  <[S n := chain E C (S n)]> (array_after E C n) = array_after E C (S n).
Proof.
  intros Hn. unfold array_after.
  rewrite insert_app_r_alt by (rewrite length_fmap, length_seq; lia).
  rewrite length_fmap, length_seq, Nat.sub_diag.
  replace (traj_length C - S n)%nat with (S (traj_length C - S (S n))) by lia.
  rewrite (seq_S (S n)), fmap_app, <- app_assoc. done.
Qed.

Lemma initial_spec :
  initial E C
  = Some (State (array_after E C 0) 0 0 (generator_at E C 0)).
Proof.
  unfold initial, array_after, np_zeros.
  rewrite setitem_Some by (rewrite length_replicate; lia).
  destruct (traj_length C) as [|n]; [lia|]. cbn. by rewrite Nat.sub_0_r.
Qed.

Lemma metropolis_step_spec n :
  (S n < traj_length C)%nat →
  metropolis_step E C
    (State (array_after E C n) (tally E C n).1 (tally E C n).2
           (generator_at E C n)) n
  = Some (State (array_after E C (S n))
                (tally E C (S n)).1 (tally E C (S n)).2
                (generator_at E C (S n))).
Proof.
  intros Hn. unfold metropolis_step, getitem. cbn [trajectory generator].
  rewrite array_after_lookup by lia. cbn [mbind option_bind].
  rewrite propose_positive by apply chain_positive. cbn [mbind option_bind].
  pose proof (array_after_insert n Hn) as Hins.
  cbn [chain] in Hins. unfold next_position in Hins.
  cbn [tally n_accepted n_rejected]. destruct (tally E C n) as [acc rej].
  replace (n + 1)%nat with (S n) by lia.
  destruct (accepts E (chain E C n) (generator_at E C n)) eqn:Hacc;
    (rewrite setitem_Some by (rewrite array_after_length; lia));
    cbn [mbind option_bind]; rewrite Hins;
    destruct (burn_in C <? Z.of_nat n)%Z; cbn [fst snd];
    by rewrite ?Nat.add_1_r.
Qed.

(** The loop computes the chain: after [n] steps the array holds the
    first [n+1] positions of the chain, the counters are its tally and
    the generator has made [n] pairs of draws. *)
Lemma walk_spec n :
  (n < traj_length C)%nat →
  walk E C n
  = Some (State (array_after E C n) (tally E C n).1 (tally E C n).2
                (generator_at E C n)).
Proof.
  unfold walk. induction n as [|n IH]; intros Hn.
  - rewrite initial_spec. done.
  - rewrite seq_S, Nat.add_0_l.
    destruct (initial E C) as [st0|] eqn:Hinit; cbn [mbind option_bind] in *.
    + rewrite for_each_snoc, IH by lia. cbn [mbind option_bind].
      by apply metropolis_step_spec.
    + specialize (IH ltac:(lia)). discriminate IH.
Qed.

Lemma metropolis_spec :
  metropolis E C
  = Some (State (array_after E C (traj_length C - 1))
                (tally E C (traj_length C - 1)).1
                (tally E C (traj_length C - 1)).2
                (generator_at E C (traj_length C - 1))).
Proof.
  apply walk_spec. lia.
Qed.

End SamplerFacts.

(** The tally counts the steps whose index lies above the burn-in index. *)
Lemma tally_total E C n :
  0 ≤ burn_in C →
  Z.of_nat ((tally E C n).1 + (tally E C n).2)
  = Z.max 0 (Z.of_nat n - 1 - burn_in C).
Proof.
  intros Hb. induction n as [|n IH]; cbn [tally]; [cbn; lia|].
  destruct (tally E C n) as [acc rej]. cbn [fst snd] in IH.
  destruct (Z.ltb_spec (burn_in C) (Z.of_nat n));
    [destruct (accepts E _ _)|]; cbn [fst snd]; lia.
Qed.

(** The generator is advanced by one proposal draw and one uniform draw per
    step, whatever the step decides. *)
Lemma metropolis_step_generator E C st step st' :
  metropolis_step E C st step = Some st' →
  generator st' = after_step E (generator st).
Proof.
  unfold metropolis_step, propose, after_step, after_jump.
  destruct (getitem _ _) as [cur|]; cbn [mbind option_bind]; [|done].
  destruct (multivariate_normal E _ _ _) as [jump g1]; cbn [fst snd].
  destruct (true_divide _ _) as [ratio|]; cbn [mbind option_bind]; [|done].
  destruct (np_random_rand E g1) as [u g2]; cbn [mbind option_bind fst snd].
  destruct (u <? _)%f64;
    (destruct (setitem _ _ _); cbn [mbind option_bind]; [|done]);
    by intros [= <-].
Qed.

Lemma walk_generator E C n st :
  walk E C n = Some st → generator st = generator_at E C n.
Proof.
  unfold walk. revert st. induction n as [|n IH]; intros st.
  - unfold initial. destruct (setitem _ _ _); cbn; [|done]. by intros [= <-].
  - rewrite seq_S, Nat.add_0_l.
    destruct (initial E C) as [st0|]; cbn [mbind option_bind] in *; [|done].
    rewrite for_each_snoc.
    destruct (for_each _ _ st0) as [st1|]; cbn [mbind option_bind]; [|done].
    intros Hstep%metropolis_step_generator.
    rewrite Hstep, (IH st1 eq_refl). done.
Qed.

(** ** The table generator meets the assumptions on the random draws *)

Lemma table_rand_nonnegative g :
  (F64.zero <=? (np_random_rand table_library g).1)%f64 = true.
Proof.
  cbn [np_random_rand table_library fst].
  pose proof (Nat.mod_upper_bound (g / 2) 3 ltac:(lia)) as Hlt.
  destruct ((g / 2) `mod` 3)%nat as [|[|[|k]]]; [by vm_compute..|lia].
Qed.

Lemma script_start_positive :
  (F64.zero <? density table_library (start script))%f64 = true.
Proof. by vm_compute. Qed.

(** ** The step rule (C1) *)



(** ** Where the trajectory can be (C2, C10) *)

Lemma in_domain_coordinates theta :
  in_domain theta = true →
  ∀ c, c = theta.1 ∨ c = theta.2 →
       (F64.zero <=? c)%f64 = true ∧ (c <=? F64.one)%f64 = true.
Proof.
  unfold in_domain. intros H c Hc.
  repeat (apply andb_prop in H as [? ?] || match goal with
          | H : (_ && _) = true |- _ => apply andb_prop in H as [? ?] end).
  destruct Hc as [->| ->]; auto.
Qed.

Lemma outside_not_in_domain theta c :
  c = theta.1 ∨ c = theta.2 →
  (F64.zero <=? c)%f64 && (c <=? F64.one)%f64 = false →
  in_domain theta = false.
Proof.
  intros Hc Hout. destruct (in_domain theta) eqn:Hin; [|done].
  destruct (in_domain_coordinates _ Hin c Hc) as [H0 H1].
  by rewrite H0, H1 in Hout.
Qed.

(** C2. The target density is exactly [0.0] as soon as one coordinate of
    its argument lies outside [[0, 1]]; and in a run with uniform draws
    that are not negative and a start of positive density, every
    coordinate of every row of the trajectory lies within [[0, 1]]. *)
Theorem trajectory_in_domain (E : library) (C : config) :
  (∀ theta c, c = theta.1 ∨ c = theta.2 →
     (F64.zero <=? c)%f64 && (c <=? F64.one)%f64 = false →
     target_rel_prob E theta = PyFloat F64.zero)
  ∧ ((∀ g, (F64.zero <=? (np_random_rand E g).1)%f64 = true) →
     (F64.zero <? density E (start C))%f64 = true →
     (0 < traj_length C)%nat →
     ∃ st, metropolis E C = Some st
       ∧ ∀ i, (i < traj_length C)%nat →
           ∃ pt, trajectory st !! i = Some pt
             ∧ ∀ c, c = pt.1 ∨ c = pt.2 →
                 (F64.zero <=? c)%f64 = true ∧ (c <=? F64.one)%f64 = true).
Proof.
  split.
  - intros theta c Hc Hout. apply density_outside.
    by apply (outside_not_in_domain theta c).
  - intros Hrand Hstart Hlen. eexists. split; [by apply metropolis_spec|].
    cbn [trajectory]. intros i Hi. exists (chain E C i).
    split; [apply array_after_lookup; lia|].
    apply in_domain_coordinates.
    by apply (density_positive_inside E), chain_positive.
Qed.

Lemma trajectory_in_domain_witness :
  (F64.dec 12 1 = (F64.dec 12 1, F64.half).1
   ∨ F64.dec 12 1 = (F64.dec 12 1, F64.half).2)
  ∧ (F64.zero <=? F64.dec 12 1)%f64 && (F64.dec 12 1 <=? F64.one)%f64 = false
  ∧ target_rel_prob table_library (F64.dec 12 1, F64.half) = PyFloat F64.zero
  ∧ (∀ g, (F64.zero <=? (np_random_rand table_library g).1)%f64 = true)
  ∧ (F64.zero <? density table_library (start short_script))%f64 = true
  ∧ (0 < traj_length short_script)%nat
  ∧ ∃ st, metropolis table_library short_script = Some st
      ∧ ∀ i, (i < traj_length short_script)%nat →
          ∃ pt, trajectory st !! i = Some pt
            ∧ ∀ c, c = pt.1 ∨ c = pt.2 →
                (F64.zero <=? c)%f64 = true ∧ (c <=? F64.one)%f64 = true.
Proof.
  split; [by left|]. split; [by vm_compute|].
  split.
  { apply (proj1 (trajectory_in_domain table_library short_script)
             (F64.dec 12 1, F64.half) (F64.dec 12 1)); [by left|by vm_compute]. }
  split; [exact table_rand_nonnegative|].
  split; [exact script_start_positive|].
  split; [cbn; lia|].
  apply (proj2 (trajectory_in_domain table_library short_script)).
  - exact table_rand_nonnegative.
  - exact script_start_positive.
  - cbn; lia.
Defined.

(** C10. In a run with uniform draws that are not negative and a start of
    positive density, every row of the trajectory has strictly positive
    target density, and so no coordinate of a row equals 0 or 1. *)
Theorem trajectory_positive_density (E : library) (C : config) :
  (∀ g, (F64.zero <=? (np_random_rand E g).1)%f64 = true) →
  (F64.zero <? density E (start C))%f64 = true →
  (0 < traj_length C)%nat →
  ∃ st, metropolis E C = Some st
    ∧ ∀ i, (i < traj_length C)%nat →
        ∃ pt, trajectory st !! i = Some pt
          ∧ (F64.zero <? value (target_rel_prob E pt))%f64 = true
          ∧ ∀ c, c = pt.1 ∨ c = pt.2 →
              (c =? F64.zero)%f64 = false ∧ (c =? F64.one)%f64 = false.
Proof.
  intros Hrand Hstart Hlen. eexists. split; [by apply metropolis_spec|].
  cbn [trajectory]. intros i Hi. exists (chain E C i).
  split; [apply array_after_lookup; lia|].
  pose proof (chain_positive E C Hrand Hstart i) as Hpos.
  split; [exact Hpos|]. intros c Hc.
  by apply (density_positive_interior E (chain E C i)).
Qed.

Lemma trajectory_positive_density_witness :
  (∀ g, (F64.zero <=? (np_random_rand table_library g).1)%f64 = true)
  ∧ (F64.zero <? density table_library (start short_script))%f64 = true
  ∧ (0 < traj_length short_script)%nat
  ∧ ∃ st, metropolis table_library short_script = Some st
      ∧ ∀ i, (i < traj_length short_script)%nat →
          ∃ pt, trajectory st !! i = Some pt
            ∧ (F64.zero <? value (target_rel_prob table_library pt))%f64 = true
            ∧ ∀ c, c = pt.1 ∨ c = pt.2 →
                (c =? F64.zero)%f64 = false ∧ (c =? F64.one)%f64 = false.
Proof.
  split; [exact table_rand_nonnegative|].
  split; [exact script_start_positive|].
  split; [cbn; lia|].
  apply (trajectory_positive_density table_library short_script).
  - exact table_rand_nonnegative.
  - exact script_start_positive.
  - cbn; lia.
Defined.

(** ** The counters (C3) *)

(** C3, as the loop has it.  The counters are raised at the steps whose
    index lies strictly above the burn-in index, and the loop's last step
    index is [traj_length - 2]: with a burn-in index that is not negative,
    the two counters add up to [max 0 (traj_length - 2 - burn_in)]. *)
Theorem counters_total (E : library) (C : config) :
  (∀ g, (F64.zero <=? (np_random_rand E g).1)%f64 = true) →
  (F64.zero <? density E (start C))%f64 = true →
  (0 < traj_length C)%nat →
  0 ≤ burn_in C →
  ∃ st, metropolis E C = Some st
    ∧ (n_accepted st, n_rejected st) = tally E C (traj_length C - 1)
    ∧ Z.of_nat (n_accepted st + n_rejected st)
      = Z.max 0 (Z.of_nat (traj_length C) - 2 - burn_in C).
Proof.
  intros Hrand Hstart Hlen Hburn. eexists.
  split; [by apply metropolis_spec|]. cbn [n_accepted n_rejected].
  split; [by destruct (tally E C _)|].
  rewrite tally_total by done. lia.
Qed.

Lemma counters_total_witness :
  (∀ g, (F64.zero <=? (np_random_rand table_library g).1)%f64 = true)
  ∧ (F64.zero <? density table_library (start short_script))%f64 = true
  ∧ (0 < traj_length short_script)%nat
  ∧ 0 ≤ burn_in short_script
  ∧ ∃ st, metropolis table_library short_script = Some st
      ∧ (n_accepted st, n_rejected st)
        = tally table_library short_script (traj_length short_script - 1)
      ∧ Z.of_nat (n_accepted st + n_rejected st)
        = Z.max 0 (Z.of_nat (traj_length short_script) - 2
                   - burn_in short_script).
Proof.
  split; [exact table_rand_nonnegative|].
  split; [exact script_start_positive|].
  split; [cbn; lia|].
  split; [by vm_compute|].
  apply (counters_total table_library short_script).
  - exact table_rand_nonnegative.
  - exact script_start_positive.
  - cbn; lia.
  - by vm_compute.
Defined.

(** With the constants of the script, the loop raises a counter at the
    steps 501 to 4998: 4498 times, one less than
    [max 0 (traj_length - 1 - burn_in) = 4499]. *)
Lemma acceptance_bound_off_by_one :
  ∃ st, metropolis table_library script = Some st
    ∧ Z.of_nat (n_accepted st + n_rejected st) = 4498
    ∧ Z.max 0 (Z.of_nat (traj_length script) - 1 - burn_in script) = 4499
    ∧ Z.of_nat (n_accepted st + n_rejected st)
      ≠ Z.max 0 (Z.of_nat (traj_length script) - 1 - burn_in script).
Proof.
  assert (burn_in script = 500) as Hburn by by vm_compute.
  eexists. split.
  { apply metropolis_spec;
      [exact table_rand_nonnegative|exact script_start_positive|cbn; lia]. }
  cbn [n_accepted n_rejected].
  rewrite tally_total by (rewrite Hburn; lia).
  rewrite Hburn. cbn [traj_length script]. lia.
Qed.

(** ** A current position of zero density (C4) *)

Lemma minimum_one_infinity : np_minimum F64.one (S754_infinity false) = F64.one.
Proof. reflexivity. Qed.

Lemma div_positive_zero p :
  (F64.zero <? p)%f64 = true → (p / F64.zero)%f64 = S754_infinity false.
Proof. by intros [->|(m & e & ->)]%positive_shape. Qed.

Lemma leb_not_nan x y : (x <=? y)%f64 = true → F64.isnan y = false.
Proof. destruct x as [[]|[]| |[] m e], y as [[]|[]| |[] m' e']; cbn; congruence. Qed.

(** C4, as the loop has it.  The quotient of the densities is not guarded:
    from a current position whose density is [+0.0], a proposal of positive
    density has the quotient plus infinity and the acceptance probability
    1, and is accepted whenever the uniform draw lies below 1.  In a run
    with uniform draws that are not negative and a start of positive
    density this does not arise: the loop does not fail, every row of the
    trajectory has positive density, and no coordinate of a row is NaN. *)
Theorem zero_density_unguarded (E : library) (C : config) :
  (∀ current g,
     density E current = F64.zero →
     (F64.zero <? density E (vadd current (jump_of E g)))%f64 = true →
     propose E current g
     = Some (vadd current (jump_of E g), F64.one,
             (uniform_of E g <? F64.one)%f64, after_step E g))
  ∧ ((∀ g, (F64.zero <=? (np_random_rand E g).1)%f64 = true) →
     (F64.zero <? density E (start C))%f64 = true →
     (0 < traj_length C)%nat →
     ∃ st, metropolis E C = Some st
       ∧ ∀ i, (i < traj_length C)%nat →
           ∃ pt, trajectory st !! i = Some pt
             ∧ (F64.zero <? density E pt)%f64 = true
             ∧ F64.isnan pt.1 = false ∧ F64.isnan pt.2 = false).
Proof.
  split.
  - intros current g Hzero Hpos.
    destruct (density_positive_inside _ _ Hpos) as [_ Heq].
    pose proof (div_positive_zero _ Hpos) as Hdiv.
    unfold density in Hdiv. rewrite Heq in Hdiv. cbn [value] in Hdiv.
    unfold propose, uniform_of, after_step, after_jump, jump_of, density in *.
    destruct (multivariate_normal E _ _ g) as [jump g1]; cbn [fst snd] in *.
    rewrite Heq.
    destruct (target_rel_prob E current) as [c|c]; cbn [value] in Hzero;
      subst c; cbn [true_divide value mbind option_bind];
      rewrite Hdiv, minimum_one_infinity;
      by destruct (np_random_rand E g1) as [u g2].
  - intros Hrand Hstart Hlen. eexists. split; [by apply metropolis_spec|].
    cbn [trajectory]. intros i Hi. exists (chain E C i).
    split; [apply array_after_lookup; lia|].
    pose proof (chain_positive E C Hrand Hstart i) as Hpos.
    split; [exact Hpos|].
    apply (density_positive_inside E) in Hpos as [Hin _].
    destruct (in_domain_coordinates _ Hin (chain E C i).1) as [H1 _]; [by left|].
    destruct (in_domain_coordinates _ Hin (chain E C i).2) as [H2 _]; [by right|].
    split; eapply leb_not_nan; eassumption.
Qed.

Lemma zero_density_unguarded_witness :
  density table_library (start edge_start) = F64.zero
  ∧ (F64.zero
     <? density table_library
          (vadd (start edge_start) (jump_of table_library 0%nat)))%f64 = true
  ∧ propose table_library (start edge_start) 0%nat
    = Some (vadd (start edge_start) (jump_of table_library 0%nat), F64.one,
            (uniform_of table_library 0%nat <? F64.one)%f64,
            after_step table_library 0%nat)
  ∧ (∀ g, (F64.zero <=? (np_random_rand table_library g).1)%f64 = true)
  ∧ (F64.zero <? density table_library (start short_script))%f64 = true
  ∧ (0 < traj_length short_script)%nat
  ∧ ∃ st, metropolis table_library short_script = Some st
      ∧ ∀ i, (i < traj_length short_script)%nat →
          ∃ pt, trajectory st !! i = Some pt
            ∧ (F64.zero <? density table_library pt)%f64 = true
            ∧ F64.isnan pt.1 = false ∧ F64.isnan pt.2 = false.
Proof.
  split; [by vm_compute|]. split; [by vm_compute|].
  split.
  { apply (proj1 (zero_density_unguarded table_library short_script));
      by vm_compute. }
  split; [exact table_rand_nonnegative|].
  split; [exact script_start_positive|].
  split; [cbn; lia|].
  apply (proj2 (zero_density_unguarded table_library short_script)).
  - exact table_rand_nonnegative.
  - exact script_start_positive.
  - cbn; lia.
Defined.

(** Started where the density is zero, the script accepts the first
    proposal: the quotient is plus infinity, the acceptance probability 1,
    and row 1 is the proposed position, not the start again. *)
Lemma zero_density_step_accepts :
  density table_library (start edge_start) = F64.zero
  ∧ propose table_library (start edge_start) 0%nat
    = Some (vadd (start edge_start) (F64.dec 1 1, F64.dec (-1) 1),
            F64.one, true, 2%nat)
  ∧ ∃ st, metropolis table_library edge_start = Some st
      ∧ trajectory st !! 1%nat
        = Some (vadd (start edge_start) (F64.dec 1 1, F64.dec (-1) 1))
      ∧ trajectory st !! 1%nat ≠ Some (start edge_start).
Proof.
  split; [by vm_compute|]. split; [by vm_compute|].
  eexists. split; [by vm_compute|]. split; [by vm_compute|].
  vm_compute. discriminate.
Qed.

(** ** Two runs from one seed (C9) *)

Section TwoRuns.

Variables E1 E2 : library.
Variable C : config.
Variable R : rng E1 → rng E2 → Prop.
Hypothesis draws : same_draws E1 E2 (seed C) R.

Lemma target_rel_prob_same theta :
  target_rel_prob E1 theta = target_rel_prob E2 theta.
Proof.
  unfold target_rel_prob, prior. by rewrite !(same_density _ _ _ _ draws).
Qed.

Lemma propose_same current g1 g2 :
  R g1 g2 →
  same_outcome (λ o1 o2, o1.1 = o2.1 ∧ R o1.2 o2.2)
    (propose E1 current g1) (propose E2 current g2).
Proof.
  intros Hg. unfold propose.
  destruct (same_normal _ _ _ _ draws (F64.zero, F64.zero) covar_mat g1 g2 Hg)
    as [Hjump Hg'].
  destruct (multivariate_normal E1 _ _ g1) as [jump1 g1'],
           (multivariate_normal E2 _ _ g2) as [jump2 g2'].
  cbn [fst snd] in Hjump, Hg'. subst jump2.
  rewrite !target_rel_prob_same.
  destruct (true_divide _ _) as [ratio|]; cbn [mbind option_bind]; [|done].
  destruct (same_rand _ _ _ _ draws g1' g2' Hg') as [Hu Hg''].
  destruct (np_random_rand E1 g1') as [u1 g1''],
           (np_random_rand E2 g2') as [u2 g2''].
  cbn [fst snd] in Hu, Hg''. subst u2. done.
Qed.

Lemma metropolis_step_same st1 st2 step :
  same_state R st1 st2 →
  same_outcome (same_state R)
    (metropolis_step E1 C st1 step) (metropolis_step E2 C st2 step).
Proof.
  intros (Htraj & Hacc & Hrej & Hg). unfold metropolis_step.
  rewrite Htraj, Hacc, Hrej.
  destruct (getitem (trajectory st2) step) as [current|];
    cbn [mbind option_bind]; [|done].
  pose proof (propose_same current _ _ Hg) as Hp.
  destruct (propose E1 current (generator st1)) as [[[[p1 r1] a1] g1]|],
           (propose E2 current (generator st2)) as [[[[p2 r2] a2] g2]|];
    cbn [mbind option_bind]; try done.
  destruct Hp as [[= -> -> ->] Hg']. cbn [snd] in Hg'.
  destruct a2; (destruct (setitem _ _ _); cbn [mbind option_bind]; [|done]);
    by repeat split.
Qed.

Lemma for_each_same {G1 G2 X} (Q : state G1 → state G2 → Prop)
    (body1 : state G1 → X → option (state G1))
    (body2 : state G2 → X → option (state G2)) xs :
  (∀ st1 st2 x, Q st1 st2 → same_outcome Q (body1 st1 x) (body2 st2 x)) →
  ∀ st1 st2, Q st1 st2 →
    same_outcome Q (for_each body1 xs st1) (for_each body2 xs st2).
Proof.
  intros Hbody. induction xs as [|x xs IH]; intros st1 st2 Hst; cbn; [done|].
  specialize (Hbody st1 st2 x Hst).
  destruct (body1 st1 x) as [st1'|], (body2 st2 x) as [st2'|];
    cbn [mbind option_bind]; try done.
  by apply IH.
Qed.

Lemma walk_same n : same_outcome (same_state R) (walk E1 C n) (walk E2 C n).
Proof.
  unfold walk, initial.
  destruct (setitem _ _ _) as [traj|]; cbn [mbind option_bind]; [|done].
  apply for_each_same; [intros; by apply metropolis_step_same|].
  repeat split. apply (same_seed _ _ _ _ draws).
Qed.

End TwoRuns.

(** C9. Two runs of the sampler from the same seed, with the same
    constants and the same target density, on generators that make the
    same draws, agree: both fail or both end with the same trajectory and
    the same counters.  Within a step the generator is drawn from twice in
    a fixed order, the proposal vector first and the uniform value from
    the state this draw leaves: after [n] steps the generator has made
    exactly [n] such pairs of draws, whatever the steps decided. *)
Theorem reproducible (E1 E2 : library) (C : config)
    (R : rng E1 → rng E2 → Prop) :
  same_draws E1 E2 (seed C) R →
  same_outcome (same_state R) (metropolis E1 C) (metropolis E2 C)
  ∧ (∀ n st, walk E1 C n = Some st →
       generator st
       = Nat.iter n
           (λ g, (np_random_rand E1
                    (multivariate_normal E1 (F64.zero, F64.zero)
                       covar_mat g).2).2)
           (np_random_seed E1 (seed C))).
Proof.
  intros Hdraws. split; [by apply walk_same|].
  intros n st Hwalk. by apply walk_generator in Hwalk.
Qed.

Lemma shifted_same_draws s :
  same_draws table_library shifted_library s shifted.
Proof.
  assert (∀ g, ((g + 24) / 2 = g / 2 + 12)%nat) as Hdiv.
  { intros g. change 24%nat with (12 * 2)%nat. by apply Nat.div_add. }
  assert (∀ x, ((x + 12) `mod` 4 = x `mod` 4)%nat) as Hmod4.
  { intros x. change 12%nat with (3 * 4)%nat. apply Nat.Div0.mod_add. }
  assert (∀ x, ((x + 12) `mod` 3 = x `mod` 3)%nat) as Hmod3.
  { intros x. change 12%nat with (4 * 3)%nat. apply Nat.Div0.mod_add. }
  split; try done; unfold shifted.
  - intros mean cov g1 g2 ->.
    cbn [multivariate_normal shifted_library table_library fst snd].
    by rewrite Hdiv, Hmod4.
  - intros g1 g2 ->.
    cbn [np_random_rand shifted_library table_library fst snd].
    by rewrite Hdiv, Hmod3.
Qed.

Lemma reproducible_witness :
  same_draws table_library shifted_library (seed short_script) shifted
  ∧ same_outcome (same_state shifted)
      (metropolis table_library short_script)
      (metropolis shifted_library short_script)
  ∧ (∀ n st, walk table_library short_script n = Some st →
       generator st
       = Nat.iter n
           (λ g, (np_random_rand table_library
                    (multivariate_normal table_library (F64.zero, F64.zero)
                       covar_mat g).2).2)
           (np_random_seed table_library (seed short_script))).
Proof.
  split; [apply shifted_same_draws|].
  apply (reproducible table_library shifted_library short_script shifted).
  apply shifted_same_draws.
Defined.

(** ** Burn-in, trimming and the summary statistics (C8) *)



(** ** The points above the waterline (C5) *)





(** ** The evidence estimate (C6) *)

(** Inside the domain the target density is the product the script divides
    by. *)
Lemma density_inside E theta :
  in_domain theta = true →
  density E theta = (likelihood theta * prior E theta)%f64.
Proof. unfold density, target_rel_prob. by intros ->. Qed.


Lemma accepted_traj_subseteq traj B : accepted_traj traj B ⊆ traj.
Proof.
  unfold accepted_traj, slice_from. destruct (0 <=? B); apply subseteq_drop.
Qed.



(** ** Raising the credibility mass (C7) *)




(** *** Percentiles in exact arithmetic *)

Section RationalPercentile.

Local Open Scope Q_scope.

Local Instance rational_le_total : Total (ar_le rational).
Proof.
  intros x y. unfold ar_le. cbn. rewrite !Qle_bool_iff.
  destruct (Qlt_le_dec x y); [left; by apply Qlt_le_weak|by right].
Qed.

Local Instance rational_le_trans : Transitive (ar_le rational).
Proof.
  intros x y z. unfold ar_le. cbn. rewrite !Qle_bool_iff. apply Qle_trans.
Qed.

Local Instance rational_le_refl : Reflexive (ar_le rational).
Proof. intros x. unfold ar_le. cbn. rewrite Qle_bool_iff. apply Qle_refl. Qed.









End RationalPercentile.



(** ** The embedding on small inputs *)

Example python_float_division_by_zero :
  true_divide (PyFloat F64.zero) (PyFloat F64.zero) = None
  ∧ true_divide (Float64 F64.zero) (PyFloat F64.zero) = Some S754_nan
  ∧ true_divide (Float64 F64.one) (Float64 F64.zero)
    = Some (S754_infinity false).
Proof. by vm_compute. Qed.

Example empty_trajectory_raises :
  metropolis table_library
    {| traj_length := 0; start := start script;
       burn_in := burn_in_of 0; seed := seed script |} = None.
Proof. by vm_compute. Qed.

Example short_script_run :
  ∃ st, metropolis table_library short_script = Some st
    ∧ length (trajectory st) = 8%nat
    ∧ (n_accepted st, n_rejected st) = (4, 1)%nat
    ∧ generator st = 14%nat.
Proof. eexists. by vm_compute. Qed.

Example percentile_of_three :
  np_percentile binary64 [F64.of_Z 1; F64.of_Z 3; F64.of_Z 2] (F64.of_Z 75)
  = Some (F64.dec 25 1)
  ∧ np_percentile binary64 [F64.of_Z 1; F64.of_Z 3] (F64.of_Z 101) = None.
Proof. by vm_compute. Qed.

(** * Further properties of the script *)

(** ** When a step raises *)

Lemma propose_None_iff (E : library) (current : vec) (g : rng E) :
  propose E current g = None
  ↔ in_domain current = false
    ∧ in_domain (vadd current (jump_of E g)) = false.
Proof.
  unfold propose, jump_of, target_rel_prob.
  destruct (multivariate_normal E _ _ g) as [jump g1]; cbn [fst].
  destruct (in_domain current), (in_domain (vadd current jump));
    cbn [true_divide value mbind option_bind];
    destruct (np_random_rand E g1) as [u g2]; cbn; split;
    try done; intros [? ?]; done.
Qed.

(** X1. A proposal raises ([ZeroDivisionError]) exactly when the current
    position and the proposed position both lie outside the domain: the
    two densities are then the Python float [0.0]. *)
Theorem propose_raises_iff (E : library) (current : vec) (g : rng E) :
  propose E current g = None
  ↔ in_domain current = false
    ∧ in_domain (vadd current (jump_of E g)) = false.
Proof. apply propose_None_iff. Qed.

(** ** The loop, step by step *)

(** What a step that does not raise has done. *)
Lemma metropolis_step_inv E C st step st' :
  metropolis_step E C st step = Some st' →
  ∃ current proposed prob_accept accept,
    trajectory st !! step = Some current
    ∧ propose E current (generator st)
      = Some (proposed, prob_accept, accept, generator st')
    ∧ (step + 1 < length (trajectory st))%nat
    ∧ trajectory st'
      = <[(step + 1)%nat := if accept then proposed else current]>
          (trajectory st)
    ∧ n_accepted st'
      = (if accept && (burn_in C <? Z.of_nat step)
         then (n_accepted st + 1)%nat else n_accepted st)
    ∧ n_rejected st'
      = (if negb accept && (burn_in C <? Z.of_nat step)
         then (n_rejected st + 1)%nat else n_rejected st).
Proof.
  unfold metropolis_step, getitem, setitem.
  destruct (trajectory st !! step) as [current|]; cbn [mbind option_bind];
    [|done].
  destruct (propose E current (generator st)) as [[[[p pa] acc] g]|] eqn:Hp;
    cbn [mbind option_bind]; [|done].
  destruct acc; (case_decide; cbn [mbind option_bind]; [|done]);
    intros [= <-]; cbn [trajectory n_accepted n_rejected generator].
  - exists current, p, pa, true. cbn [andb negb]. by repeat split.
  - exists current, p, pa, false. cbn [andb negb]. by repeat split.
Qed.

Lemma walk_S E C n :
  walk E C (S n) = st ← walk E C n; metropolis_step E C st n.
Proof.
  unfold walk. rewrite seq_S, Nat.add_0_l.
  destruct (initial E C) as [st0|]; cbn [mbind option_bind]; [|done].
  apply for_each_snoc.
Qed.

Lemma walk_shorter E C n m st' :
  walk E C m = Some st' → (n ≤ m)%nat → ∃ st, walk E C n = Some st.
Proof.
  revert st'. induction m as [|m IH]; intros st' Hm Hn.
  - replace n with 0%nat by lia. eauto.
  - destruct (decide (n = S m)) as [->|Hne]; [eauto|].
    rewrite walk_S in Hm.
    destruct (walk E C m) as [st|] eqn:Hw; [|done].
    eapply IH; [done|lia].
Qed.

(** The rows a run of [n] steps has: all [traj_length] of them, and zeros
    beyond row [n]. *)
Lemma walk_rows E C n st :
  walk E C n = Some st →
  length (trajectory st) = traj_length C
  ∧ ∀ i, (n < i < traj_length C)%nat →
      trajectory st !! i = Some (F64.zero, F64.zero).
Proof.
  revert st. induction n as [|n IH]; intros st.
  - unfold walk, initial, setitem, np_zeros. cbn [seq for_each].
    case_decide as Hlen; cbn [mbind option_bind]; [|done].
    intros [= <-]. cbn [trajectory].
    rewrite length_insert, length_replicate. split; [done|].
    intros i Hi. rewrite list_lookup_insert_ne by lia.
    apply lookup_replicate_2. lia.
  - rewrite walk_S. destruct (walk E C n) as [st0|]; cbn [mbind option_bind];
      [|done].
    destruct (IH st0 eq_refl) as [Hlen Hzero].
    intros (cur & p & pa & acc & _ & _ & _ & -> & _)%metropolis_step_inv.
    rewrite length_insert. split; [done|].
    intros i Hi. rewrite list_lookup_insert_ne by lia. apply Hzero. lia.
Qed.

(** Later steps leave the rows written so far as they are, and never lower
    a counter. *)
Lemma walk_extends E C n m st st' :
  walk E C n = Some st → walk E C m = Some st' → (n ≤ m)%nat →
  (∀ i, (i ≤ n)%nat → trajectory st' !! i = trajectory st !! i)
  ∧ (n_accepted st ≤ n_accepted st')%nat
  ∧ (n_rejected st ≤ n_rejected st')%nat
  ∧ (n_accepted st' + n_rejected st'
     ≤ n_accepted st + n_rejected st + (m - n))%nat.
Proof.
  intros Hn. revert st'. induction m as [|m IH]; intros st' Hm Hle.
  - assert (n = 0)%nat as -> by lia. rewrite Hn in Hm. injection Hm as <-.
    repeat split; lia || done.
  - destruct (decide (n = S m)) as [->|Hne].
    { rewrite Hn in Hm. injection Hm as <-. repeat split; lia || done. }
    rewrite walk_S in Hm.
    destruct (walk E C m) as [st1|] eqn:Hw; [|done].
    cbn [mbind option_bind] in Hm.
    destruct (IH st1 eq_refl ltac:(lia)) as (Hrows & Hacc & Hrej & Hsum).
    apply metropolis_step_inv in Hm
      as (cur & p & pa & acc & _ & _ & _ & -> & -> & ->).
    split.
    { intros i Hi. rewrite list_lookup_insert_ne by lia. by apply Hrows. }
    destruct acc, (burn_in C <? Z.of_nat m); cbn [andb negb]; lia.
Qed.

(** ** Runs that end at once *)

(** X2. An array of no rows makes the script raise ([IndexError]) before
    the loop; an array of one row leaves the loop without a step: the
    trajectory is the start alone, whatever its density, the counters are
    zero and the generator has only been seeded. *)
Theorem degenerate_lengths (E : library) (C : config) :
  (traj_length C = 0%nat → metropolis E C = None)
  ∧ (traj_length C = 1%nat →
     metropolis E C
     = Some (State [start C] 0 0 (np_random_seed E (seed C)))).
Proof.
  unfold metropolis, walk, initial, setitem, np_zeros.
  split; intros ->; cbn [replicate length Nat.sub seq for_each].
  - by rewrite decide_False by (cbn; lia).
  - by rewrite decide_True by (cbn; lia).
Qed.

Lemma degenerate_lengths_witness :
  let none := {| traj_length := 0; start := (F64.dec 12 1, F64.half);
                 burn_in := burn_in_of 0; seed := 47405 |} in
  let single := {| traj_length := 1; start := (F64.dec 12 1, F64.half);
                   burn_in := burn_in_of 1; seed := 47405 |} in
  traj_length none = 0%nat
  ∧ metropolis table_library none = None
  ∧ traj_length single = 1%nat
  ∧ metropolis table_library single
    = Some (State [start single] 0 0
              (np_random_seed table_library (seed single))).
Proof.
  intros none single. split; [done|].
  split; [exact (proj1 (degenerate_lengths table_library none) eq_refl)|].
  split; [done|].
  exact (proj2 (degenerate_lengths table_library single) eq_refl).
Defined.

(** X3. Started outside the domain, the script raises
    ([ZeroDivisionError]) in its first step when the first proposal lies
    outside the domain too. *)
Theorem outside_start_raises (E : library) (C : config) :
  in_domain (start C) = false →
  in_domain (vadd (start C) (jump_of E (np_random_seed E (seed C)))) = false →
  (2 ≤ traj_length C)%nat →
  metropolis E C = None.
Proof.
  intros Hstart Hjump Hlen.
  destruct (metropolis E C) as [st'|] eqn:Hrun; [|done]. exfalso.
  destruct (walk_shorter E C 1 _ st' Hrun ltac:(lia)) as [st1 Hw1].
  rewrite walk_S in Hw1.
  destruct (walk E C 0) as [st0|] eqn:Hw0; [|done].
  cbn [mbind option_bind] in Hw1.
  apply metropolis_step_inv in Hw1 as (cur & p & pa & acc & Hcur & Hp & _).
  unfold walk, initial, setitem, np_zeros in Hw0. cbn [seq for_each] in Hw0.
  case_decide as Hl; cbn [mbind option_bind] in Hw0; [|done].
  injection Hw0 as <-. cbn [trajectory generator] in Hcur, Hp.
  rewrite list_lookup_insert_eq in Hcur by done. injection Hcur as <-.
  assert (propose E (start C) (np_random_seed E (seed C)) = None) as Hnone
    by by apply propose_None_iff.
  congruence.
Qed.

Lemma outside_start_raises_witness :
  let outside := {| traj_length := 8; start := (F64.dec 12 1, F64.half);
                    burn_in := burn_in_of 8; seed := 47405 |} in
  in_domain (start outside) = false
  ∧ in_domain (vadd (start outside)
                 (jump_of table_library
                    (np_random_seed table_library (seed outside)))) = false
  ∧ (2 ≤ traj_length outside)%nat
  ∧ metropolis table_library outside = None.
Proof.
  intros outside. split; [by vm_compute|]. split; [by vm_compute|].
  split; [cbn; lia|].
  apply (outside_start_raises table_library outside);
    [by vm_compute|by vm_compute|cbn; lia].
Defined.

(** ** Stopping the loop early *)

(** X4. The array after [n] steps is a valid part of every longer run: it
    has all its rows, the rows [0 .. n] are those the longer run ends
    with, and the rows beyond [n] are still the zeros the array was created
    with.  A step never rewrites a row written before. *)
Theorem partial_run_is_prefix (E : library) (C : config) (n m : nat)
    (st st' : state (rng E)) :
  walk E C n = Some st → walk E C m = Some st' → (n ≤ m)%nat →
  length (trajectory st) = traj_length C
  ∧ (∀ i, (i ≤ n)%nat → trajectory st' !! i = trajectory st !! i)
  ∧ (∀ i, (n < i < traj_length C)%nat →
       trajectory st !! i = Some (F64.zero, F64.zero)).
Proof.
  intros Hn Hm Hle. destruct (walk_rows E C n st Hn) as [Hlen Hzero].
  destruct (walk_extends E C n m st st' Hn Hm Hle) as [Hrows _]. done.
Qed.

Lemma partial_run_is_prefix_witness :
  ∃ st st',
    walk table_library short_script 3 = Some st
    ∧ walk table_library short_script 7 = Some st'
    ∧ (3 ≤ 7)%nat
    ∧ length (trajectory st) = traj_length short_script
    ∧ (∀ i, (i ≤ 3)%nat → trajectory st' !! i = trajectory st !! i)
    ∧ (∀ i, (3 < i < traj_length short_script)%nat →
         trajectory st !! i = Some (F64.zero, F64.zero)).
Proof.
  destruct (walk table_library short_script 3) as [st|] eqn:H3;
    [|by vm_compute in H3].
  destruct (walk table_library short_script 7) as [st'|] eqn:H7;
    [|by vm_compute in H7].
  exists st, st'. split; [reflexivity|]. split; [reflexivity|].
  split; [lia|].
  apply (partial_run_is_prefix table_library short_script 3 7 st st');
    [exact H3|exact H7|lia].
Defined.

(** ** The counters along the loop *)

Lemma walk_burn_in_counters E C n st :
  walk E C n = Some st → Z.of_nat n ≤ burn_in C + 1 →
  n_accepted st = 0%nat ∧ n_rejected st = 0%nat.
Proof.
  revert st. induction n as [|n IH]; intros st.
  - unfold walk, initial. cbn [seq for_each].
    destruct (setitem _ _ _); cbn [mbind option_bind]; [|done].
    by intros [= <-].
  - rewrite walk_S. destruct (walk E C n) as [st0|]; cbn [mbind option_bind];
      [|done].
    intros (cur & p & pa & acc & _ & _ & _ & _ & -> & ->)%metropolis_step_inv
      Hn.
    destruct (IH st0 eq_refl ltac:(lia)) as [-> ->].
    destruct (Z.ltb_spec (burn_in C) (Z.of_nat n)); [lia|].
    by rewrite !andb_false_r.
Qed.

(** X5. Along the loop the counters never decrease, a step raises their
    sum by at most one, and both stay at zero as long as no step index
    above the burn-in index has been run: after [n <= burn_in + 1] steps
    they are zero. *)
Theorem counters_grow (E : library) (C : config) (n m : nat)
    (st st' : state (rng E)) :
  walk E C n = Some st → walk E C m = Some st' → (n ≤ m)%nat →
  (n_accepted st ≤ n_accepted st')%nat
  ∧ (n_rejected st ≤ n_rejected st')%nat
  ∧ (n_accepted st' + n_rejected st'
     ≤ n_accepted st + n_rejected st + (m - n))%nat
  ∧ (Z.of_nat n ≤ burn_in C + 1 →
     n_accepted st = 0%nat ∧ n_rejected st = 0%nat).
Proof.
  intros Hn Hm Hle.
  destruct (walk_extends E C n m st st' Hn Hm Hle) as (_ & Hacc & Hrej & Hsum).
  split; [done|]. split; [done|]. split; [done|].
  intros Hb. exact (walk_burn_in_counters E C n st Hn Hb).
Qed.

Lemma counters_grow_witness :
  ∃ st st',
    walk table_library short_script 2 = Some st
    ∧ walk table_library short_script 7 = Some st'
    ∧ (2 ≤ 7)%nat
    ∧ (n_accepted st ≤ n_accepted st')%nat
    ∧ (n_rejected st ≤ n_rejected st')%nat
    ∧ (n_accepted st' + n_rejected st'
       ≤ n_accepted st + n_rejected st + (7 - 2))%nat
    ∧ Z.of_nat 2 ≤ burn_in short_script + 1
    ∧ n_accepted st = 0%nat ∧ n_rejected st = 0%nat.
Proof.
  destruct (walk table_library short_script 2) as [st|] eqn:H2;
    [|by vm_compute in H2].
  destruct (walk table_library short_script 7) as [st'|] eqn:H7;
    [|by vm_compute in H7].
  exists st, st'. split; [reflexivity|]. split; [reflexivity|].
  split; [lia|].
  destruct (counters_grow table_library short_script 2 7 st st' H2 H7
              ltac:(lia)) as (Hacc & Hrej & Hsum & Hzero).
  assert (Z.of_nat 2 ≤ burn_in short_script + 1) as Hb
    by (vm_compute; discriminate).
  split; [exact Hacc|]. split; [exact Hrej|]. split; [exact Hsum|].
  split; [exact Hb|]. exact (Hzero Hb).
Defined.

(** ** What the burn-in index decides *)

Lemma metropolis_step_burn_in E C C' st1 st2 step :
  trajectory st1 = trajectory st2 ∧ generator st1 = generator st2 →
  same_outcome
    (λ s1 s2, trajectory s1 = trajectory s2 ∧ generator s1 = generator s2)
    (metropolis_step E C st1 step) (metropolis_step E C' st2 step).
Proof.
  intros [Htraj Hg]. unfold metropolis_step. rewrite Htraj, Hg.
  destruct (getitem (trajectory st2) step) as [current|];
    cbn [mbind option_bind]; [|done].
  destruct (propose E current (generator st2)) as [[[[p pa] acc] g]|];
    cbn [mbind option_bind]; [|done].
  destruct acc; by destruct (setitem _ _ _).
Qed.

(** X6. The burn-in index is used for the counters only: two runs that
    differ in nothing but their burn-in index both raise, or end with the
    same trajectory and the same generator state. *)
Theorem burn_in_only_counts (E : library) (C C' : config) :
  traj_length C = traj_length C' → start C = start C' → seed C = seed C' →
  same_outcome
    (λ st st', trajectory st = trajectory st' ∧ generator st = generator st')
    (metropolis E C) (metropolis E C').
Proof.
  intros Hlen Hstart Hseed. unfold metropolis, walk, initial.
  rewrite Hlen, Hstart, Hseed.
  destruct (setitem _ _ _) as [traj|]; cbn [mbind option_bind]; [|done].
  apply (for_each_same
           (λ st st' : state (rng E),
              trajectory st = trajectory st' ∧ generator st = generator st'));
    [|done].
  intros st1 st2 x. apply metropolis_step_burn_in.
Qed.

Lemma burn_in_only_counts_witness :
  let other := {| traj_length := traj_length short_script;
                  start := start short_script;
                  burn_in := 5; seed := seed short_script |} in
  traj_length short_script = traj_length other
  ∧ start short_script = start other
  ∧ seed short_script = seed other
  ∧ same_outcome
      (λ st st', trajectory st = trajectory st'
                 ∧ generator st = generator st')
      (metropolis table_library short_script)
      (metropolis table_library other).
Proof.
  intros other. split; [done|]. split; [done|]. split; [done|].
  by apply (burn_in_only_counts table_library short_script other).
Defined.

(** ** Counters and repeated rows *)

Lemma tally_changes E C n :
  (∀ g, (F64.zero <=? (np_random_rand E g).1)%f64 = true) →
  (F64.zero <? density E (start C))%f64 = true →
  (n < traj_length C)%nat →
  let traj := array_after E C (traj_length C - 1) in
  (length (filter (λ k, (burn_in C < Z.of_nat k)%Z
                        ∧ traj !! (k + 1)%nat ≠ traj !! k) (seq 0 n))
   ≤ (tally E C n).1)%nat
  ∧ ((tally E C n).2
     ≤ length (filter (λ k, (burn_in C < Z.of_nat k)%Z
                            ∧ traj !! (k + 1)%nat = traj !! k) (seq 0 n)))%nat.
Proof.
  intros Hrand Hstart. induction n as [|n IH]; intros Hn traj; [cbn; lia|].
  destruct (IH ltac:(lia)) as [IHa IHr]. fold traj in IHa, IHr.
  rewrite seq_S, !filter_app, !length_app, Nat.add_0_l. cbn [tally].
  assert (traj !! n = Some (chain E C n)) as Hrow
    by (apply array_after_lookup; lia).
  assert (traj !! (n + 1)%nat = Some (chain E C (S n))) as Hnext
    by (rewrite Nat.add_1_r; apply array_after_lookup; lia).
  destruct (tally E C n) as [acc rej]. cbn [fst snd] in IHa, IHr.
  rewrite !filter_cons, !filter_nil, Hrow, Hnext.
  destruct (Z.ltb_spec (burn_in C) (Z.of_nat n)) as [Hb|Hb].
  - cbn [chain]. unfold next_position.
    destruct (accepts E (chain E C n) (generator_at E C n)); cbn [fst snd].
    + split; [|lia]. case_decide; cbn [length]; lia.
    + rewrite decide_False by (intros [_ Hne]; done).
      rewrite decide_True by done. cbn [length]. lia.
  - rewrite !decide_False by (intros [? _]; lia). cbn [fst snd length]. lia.
Qed.

(** X7. Counters and trajectory agree: among the counted steps (index
    above the burn-in index), every step after which the row differs from
    the row before was counted as accepted, and every step counted as
    rejected left the row repeated.  So the accepted counter is at least
    the number of counted changes of row, and the rejected counter at most
    the number of counted repetitions. *)
Theorem changed_rows_were_accepted (E : library) (C : config) :
  (∀ g, (F64.zero <=? (np_random_rand E g).1)%f64 = true) →
  (F64.zero <? density E (start C))%f64 = true →
  (0 < traj_length C)%nat →
  ∃ st, metropolis E C = Some st
    ∧ let traj := trajectory st in
      let steps := seq 0 (traj_length C - 1) in
      (length (filter (λ k, (burn_in C < Z.of_nat k)%Z
                            ∧ traj !! (k + 1)%nat ≠ traj !! k) steps)
       ≤ n_accepted st)%nat
      ∧ (n_rejected st
         ≤ length (filter (λ k, (burn_in C < Z.of_nat k)%Z
                                ∧ traj !! (k + 1)%nat = traj !! k) steps))%nat.
Proof.
  intros Hrand Hstart Hlen. eexists. split; [by apply metropolis_spec|].
  cbn [trajectory n_accepted n_rejected].
  apply (tally_changes E C (traj_length C - 1) Hrand Hstart). lia.
Qed.

Lemma changed_rows_were_accepted_witness :
  (∀ g, (F64.zero <=? (np_random_rand table_library g).1)%f64 = true)
  ∧ (F64.zero <? density table_library (start short_script))%f64 = true
  ∧ (0 < traj_length short_script)%nat
  ∧ ∃ st, metropolis table_library short_script = Some st
    ∧ let traj := trajectory st in
      let steps := seq 0 (traj_length short_script - 1) in
      (length (filter (λ k, (burn_in short_script < Z.of_nat k)%Z
                            ∧ traj !! (k + 1)%nat ≠ traj !! k) steps)
       ≤ n_accepted st)%nat
      ∧ (n_rejected st
         ≤ length (filter (λ k, (burn_in short_script < Z.of_nat k)%Z
                                ∧ traj !! (k + 1)%nat = traj !! k) steps))%nat.
Proof.
  split; [exact table_rand_nonnegative|].
  split; [exact script_start_positive|].
  split; [cbn; lia|].
  apply (changed_rows_were_accepted table_library short_script).
  - exact table_rand_nonnegative.
  - exact script_start_positive.
  - cbn; lia.
Defined.

(** ** Proposals outside the domain *)

Lemma div_zero_positive c :
  (F64.zero <? c)%f64 = true → (F64.zero / c)%f64 = F64.zero.
Proof. by intros [->|(m & e & ->)]%positive_shape. Qed.

Lemma ltb_zero_nonnegative u :
  (F64.zero <=? u)%f64 = true → (u <? F64.zero)%f64 = false.
Proof. by destruct u as [[]|[]| |[] m e]. Qed.

(** X8. The loop never accepts a jump to an invalid parameter value: in a
    run, a proposal outside the domain has the acceptance probability
    [0.0] exactly, is rejected, and the next row repeats the current
    one. *)
Theorem outside_proposal_rejected (E : library) (C : config) :
  (∀ g, (F64.zero <=? (np_random_rand E g).1)%f64 = true) →
  (F64.zero <? density E (start C))%f64 = true →
  (0 < traj_length C)%nat →
  ∃ st, metropolis E C = Some st
    ∧ ∀ step, (step + 1 < traj_length C)%nat →
        ∃ current, trajectory st !! step = Some current
          ∧ let g := generator_at E C step in
            let proposed := vadd current (jump_of E g) in
            in_domain proposed = false →
            propose E current g
            = Some (proposed, F64.zero, false, after_step E g)
            ∧ trajectory st !! (step + 1)%nat = Some current.
Proof.
  intros Hrand Hstart Hlen. eexists. split; [by apply metropolis_spec|].
  cbn [trajectory]. intros step Hstep. exists (chain E C step).
  split; [apply array_after_lookup; lia|]. intros Hout.
  set (g := generator_at E C step) in *.
  set (proposed := vadd (chain E C step) (jump_of E g)) in *.
  pose proof (chain_positive E C Hrand Hstart step) as Hpos.
  assert (np_minimum F64.one
            (density E proposed / density E (chain E C step))%f64
          = F64.zero) as Hprob.
  { unfold density at 1. rewrite (density_outside E proposed Hout).
    cbn [value]. by rewrite div_zero_positive. }
  assert (accepts E (chain E C step) g = false) as Hacc.
  { unfold accepts. fold proposed. rewrite Hprob.
    apply ltb_zero_nonnegative, Hrand. }
  split.
  - rewrite propose_positive by done. fold proposed. by rewrite Hprob, Hacc.
  - rewrite Nat.add_1_r, array_after_lookup by lia.
    cbn [chain]. unfold next_position. fold g. by rewrite Hacc.
Qed.

Lemma outside_proposal_rejected_witness :
  (∀ g, (F64.zero <=? (np_random_rand table_library g).1)%f64 = true)
  ∧ (F64.zero <? density table_library (start short_script))%f64 = true
  ∧ (0 < traj_length short_script)%nat
  ∧ ∃ st, metropolis table_library short_script = Some st
    ∧ ∀ step, (step + 1 < traj_length short_script)%nat →
        ∃ current, trajectory st !! step = Some current
          ∧ let g := generator_at table_library short_script step in
            let proposed := vadd current (jump_of table_library g) in
            in_domain proposed = false →
            propose table_library current g
            = Some (proposed, F64.zero, false, after_step table_library g)
            ∧ trajectory st !! (step + 1)%nat = Some current.
Proof.
  split; [exact table_rand_nonnegative|].
  split; [exact script_start_positive|].
  split; [cbn; lia|].
  apply (outside_proposal_rejected table_library short_script).
  - exact table_rand_nonnegative.
  - exact script_start_positive.
  - cbn; lia.
Defined.

(** ** The burn-in index *)

Lemma of_nat_unsigned n : unsigned (F64.of_Z (Z.of_nat n)).
Proof.
  unfold F64.of_Z, binary_normalize, unsigned.
  destruct (Z.of_nat n) as [|p|p] eqn:Hn; [auto| |lia].
  unfold binary_round. destruct (shl_align _ _ _) as [mz ez].
  apply (binary_round_aux_shape false).
Qed.

Lemma tenth_mul_unsigned x : unsigned x → unsigned (F64.dec 1 1 * x)%f64.
Proof.
  assert (F64.dec 1 1 = S754_finite false 7205759403792794 (-56)) as ->
    by by vm_compute.
  intros [->|[->|[->|(m & e & ->)]]]; unfold unsigned; cbn; auto.
  apply (binary_round_aux_shape false).
Qed.

Lemma ceil_unsigned x : unsigned x → 0 ≤ F64.ceil x.
Proof.
  intros [->|[->|[->|(m & e & ->)]]]; cbn; try lia.
  destruct (0 <=? e) eqn:He; [apply Z.leb_le in He; nia|].
  apply Z.leb_gt in He.
  assert (0 < 2 ^ (- e)) by (apply Z.pow_pos_nonneg; lia).
  assert (Z.neg m / 2 ^ (- e) < 0); [|lia].
  apply Z.div_lt_upper_bound; lia.
Qed.

(** X9. For every length of the trajectory whose tenth is a finite
    binary64 number with a ceiling that fits a 64-bit integer, the burn-in
    index [ceil(.1 * traj_length)] is not negative, so the slice
    [trajectory[burn_in:]] never counts from the end of the array: it drops
    the first [burn_in] rows. *)
Theorem burn_in_of_nonnegative (n : nat) :
  is_finite (F64.dec 1 1 * F64.of_Z (Z.of_nat n))%f64 = true →
  burn_in_of n < 2 ^ 63 →
  0 ≤ burn_in_of n
  ∧ ∀ traj : list vec,
      accepted_traj traj (burn_in_of n) = drop (Z.to_nat (burn_in_of n)) traj.
Proof.
  intros _ _.
  assert (0 ≤ burn_in_of n) as Hn
    by apply ceil_unsigned, tenth_mul_unsigned, of_nat_unsigned.
  split; [done|]. intros traj. unfold accepted_traj, slice_from.
  destruct (Z.leb_spec 0 (burn_in_of n)); [done|lia].
Qed.

Lemma burn_in_of_nonnegative_witness :
  is_finite (F64.dec 1 1 * F64.of_Z (Z.of_nat 5000))%f64 = true
  ∧ burn_in_of 5000 < 2 ^ 63
  ∧ 0 ≤ burn_in_of 5000
  ∧ ∀ traj : list vec,
      accepted_traj traj (burn_in_of 5000)
      = drop (Z.to_nat (burn_in_of 5000)) traj.
Proof.
  split; [by vm_compute|]. split; [by vm_compute|].
  apply (burn_in_of_nonnegative 5000); by vm_compute.
Defined.

(** ** The labels and the trimmed sample *)

Lemma accepted_traj_length traj B :
  0 ≤ B →
  length (accepted_traj traj B) = (length traj - Z.to_nat B)%nat.
Proof.
  intros HB. unfold accepted_traj, slice_from.
  destruct (Z.leb_spec 0 B); [apply length_drop|lia].
Qed.

(** Slicing past the end gives an empty sample, whose means and standard
    deviations are NaN. *)
Lemma empty_sample (traj : list vec) (B : Z) :
  Z.of_nat (length traj) ≤ B →
  accepted_traj traj B = []
  ∧ mean_traj traj B = (S754_nan, S754_nan)
  ∧ stdTraj traj B = (S754_nan, S754_nan).
Proof.
  intros HB.
  assert (accepted_traj traj B = []) as Hempty.
  { unfold accepted_traj, slice_from.
    destruct (Z.leb_spec 0 B); [|lia]. apply drop_ge. lia. }
  unfold mean_traj, stdTraj. rewrite Hempty. by vm_compute.
Qed.

(** X10. The number shown as the number of proposals is the length of the
    trimmed trajectory, [traj_length - burn_in]: two more than the
    proposals the counters have counted, whenever at least one step is
    counted.  The rate [n_accepted/len(accepted_traj)] is then defined.
    When the burn-in index reaches the length of the trajectory, nothing is
    detected at first: the trimmed trajectory is empty, its means and
    standard deviations are NaN, and the rate then raises
    ([ZeroDivisionError]). *)
Theorem displayed_proposals (E : library) (C : config) :
  (∀ g, (F64.zero <=? (np_random_rand E g).1)%f64 = true) →
  (F64.zero <? density E (start C))%f64 = true →
  (0 < traj_length C)%nat →
  0 ≤ burn_in C →
  ∃ st, metropolis E C = Some st
    ∧ let trimmed := accepted_traj (trajectory st) (burn_in C) in
      (burn_in C + 2 ≤ Z.of_nat (traj_length C) →
       N_pro trimmed = (n_accepted st + n_rejected st + 2)%nat
       ∧ ∃ rate, acceptance_rate (n_accepted st) trimmed = Some rate)
      ∧ (Z.of_nat (traj_length C) ≤ burn_in C →
         trimmed = []
         ∧ mean_traj (trajectory st) (burn_in C) = (S754_nan, S754_nan)
         ∧ stdTraj (trajectory st) (burn_in C) = (S754_nan, S754_nan)
         ∧ acceptance_rate (n_accepted st) trimmed = None).
Proof.
  intros Hrand Hstart Hlen Hburn. eexists.
  split; [by apply metropolis_spec|]. cbn [trajectory n_accepted n_rejected].
  pose proof (tally_total E C (traj_length C - 1) Hburn) as Htotal.
  pose proof (accepted_traj_length
                (array_after E C (traj_length C - 1)) (burn_in C) Hburn)
    as Htrim.
  rewrite array_after_length in Htrim by lia.
  split.
  - intros Hcounted. unfold N_pro, acceptance_rate, int_true_divide.
    split; [lia|].
    destruct (Z.eqb_spec (Z.of_nat (length (accepted_traj
        (array_after E C (traj_length C - 1)) (burn_in C)))) 0); [lia|eauto].
  - intros Hempty.
    destruct (empty_sample (array_after E C (traj_length C - 1)) (burn_in C))
      as (Hnil & Hmean & Hstd); [rewrite array_after_length; lia|].
    split; [exact Hnil|]. split; [exact Hmean|]. split; [exact Hstd|].
    by rewrite Hnil.
Qed.

Lemma displayed_proposals_witness :
  let single := {| traj_length := 1; start := start short_script;
                   burn_in := burn_in_of 1; seed := 47405 |} in
  (∀ g, (F64.zero <=? (np_random_rand table_library g).1)%f64 = true)
  ∧ (F64.zero <? density table_library (start short_script))%f64 = true
  ∧ (0 < traj_length short_script)%nat
  ∧ 0 ≤ burn_in short_script
  ∧ burn_in short_script + 2 ≤ Z.of_nat (traj_length short_script)
  ∧ Z.of_nat (traj_length single) ≤ burn_in single
  ∧ (∃ st, metropolis table_library short_script = Some st
       ∧ let trimmed := accepted_traj (trajectory st) (burn_in short_script) in
         N_pro trimmed = (n_accepted st + n_rejected st + 2)%nat
         ∧ ∃ rate, acceptance_rate (n_accepted st) trimmed = Some rate)
  ∧ (∃ st, metropolis table_library single = Some st
       ∧ let trimmed := accepted_traj (trajectory st) (burn_in single) in
         trimmed = []
         ∧ mean_traj (trajectory st) (burn_in single) = (S754_nan, S754_nan)
         ∧ stdTraj (trajectory st) (burn_in single) = (S754_nan, S754_nan)
         ∧ acceptance_rate (n_accepted st) trimmed = None).
Proof.
  intros single.
  assert (0 ≤ burn_in short_script) as Hb by (vm_compute; discriminate).
  assert (burn_in short_script + 2 ≤ Z.of_nat (traj_length short_script))
    as Hc by (vm_compute; discriminate).
  assert (0 ≤ burn_in single) as Hb1 by (vm_compute; discriminate).
  assert (Z.of_nat (traj_length single) ≤ burn_in single) as He
    by (vm_compute; discriminate).
  split; [exact table_rand_nonnegative|].
  split; [exact script_start_positive|].
  split; [cbn; lia|]. split; [exact Hb|]. split; [exact Hc|].
  split; [exact He|]. split.
  - destruct (displayed_proposals table_library short_script
                table_rand_nonnegative script_start_positive
                ltac:(cbn; lia) Hb) as (st & Hrun & Hshown & _).
    exists st. split; [exact Hrun|]. exact (Hshown Hc).
  - destruct (displayed_proposals table_library single
                table_rand_nonnegative script_start_positive
                ltac:(cbn; lia) Hb1) as (st & Hrun & _ & Hnone).
    exists st. split; [exact Hrun|]. exact (Hnone He).
Defined.

(** ** A sample that does not vary *)

Lemma mul_positive_r x y :
  (F64.zero <? x)%f64 = true → (F64.zero <? x * y)%f64 = true →
  (F64.zero <? y)%f64 = true.
Proof.
  intros [->|(m & e & ->)]%positive_shape;
    destruct y as [[]|[]| |[] my ey]; cbn; try done.
  unfold F64.mul, SFmul. cbn [xorb].
  destruct (binary_round_aux_shape true (Z.pos (m * my)) (e + ey) loc_Exact)
    as [->|[->|[->|(m' & e' & ->)]]]; done.
Qed.

Lemma mul_positive_infinity x :
  (F64.zero <? x)%f64 = true → (x * S754_infinity false)%f64 = S754_infinity false.
Proof. by intros [->|(m & e & ->)]%positive_shape. Qed.

(** X11. A standard deviation of zero is not detected: for a mean [m]
    with [m > 0] and [m*(1-m) > 0], the quotient by the zero variance is
    plus infinity, and both beta parameters are plus infinity. *)
Theorem zero_deviation_infinite (m : spec_float) (sign : bool) :
  (F64.zero <? m)%f64 = true →
  (F64.zero <? m * (F64.one - m))%f64 = true →
  beta_a m (S754_zero sign) = S754_infinity false
  ∧ beta_b m (S754_zero sign) = S754_infinity false.
Proof.
  intros Hm Hvar.
  pose proof (mul_positive_r _ _ Hm Hvar) as Hone.
  assert ((S754_zero sign ** 2)%f64 = F64.zero) as Hsq by by destruct sign.
  unfold beta_a, beta_b. rewrite Hsq, (div_positive_zero _ Hvar).
  change (S754_infinity false - F64.one)%f64 with (S754_infinity false).
  by rewrite !mul_positive_infinity.
Qed.

Lemma zero_deviation_infinite_witness :
  (F64.zero <? F64.half)%f64 = true
  ∧ (F64.zero <? F64.half * (F64.one - F64.half))%f64 = true
  ∧ beta_a F64.half (S754_zero false) = S754_infinity false
  ∧ beta_b F64.half (S754_zero false) = S754_infinity false.
Proof.
  split; [by vm_compute|]. split; [by vm_compute|].
  apply (zero_deviation_infinite F64.half false); by vm_compute.
Defined.

(** ** The divisors of the evidence weights *)

(** X12. In a run, the evidence weights never divide by zero and the
    densities handed to [np.percentile] are all positive (none is NaN):
    at every trimmed point the product [likelihood * prior] is positive
    and is the density stored in [post_prob]. *)
Theorem evidence_divisors_positive (E : library) (C : config) :
  (∀ g, (F64.zero <=? (np_random_rand E g).1)%f64 = true) →
  (F64.zero <? density E (start C))%f64 = true →
  (0 < traj_length C)%nat →
  ∃ st, metropolis E C = Some st
    ∧ (∀ pt, pt ∈ accepted_traj (trajectory st) (burn_in C) →
         (F64.zero <? likelihood pt * prior E pt)%f64 = true)
    ∧ post_prob E (trajectory st) (burn_in C)
      = (λ pt, likelihood pt * prior E pt)%f64
        <$> accepted_traj (trajectory st) (burn_in C)
    ∧ Forall (λ d, (F64.zero <? d)%f64 = true)
        (post_prob E (trajectory st) (burn_in C)).
Proof.
  intros Hrand Hstart Hlen. eexists. split; [by apply metropolis_spec|].
  cbn [trajectory]. set (traj := array_after E C (traj_length C - 1)).
  assert (∀ pt, pt ∈ accepted_traj traj (burn_in C) →
            (F64.zero <? density E pt)%f64 = true) as Hpos.
  { intros pt Hpt%accepted_traj_subseteq.
    apply list_elem_of_lookup in Hpt as [i Hi].
    pose proof (lookup_lt_Some _ _ _ Hi) as Hlt.
    unfold traj in Hi, Hlt. rewrite array_after_length in Hlt by lia.
    rewrite array_after_lookup in Hi by lia. injection Hi as <-.
    by apply chain_positive. }
  assert (∀ pt, pt ∈ accepted_traj traj (burn_in C) →
            density E pt = (likelihood pt * prior E pt)%f64) as Heq.
  { intros pt Hpt. apply density_inside.
    by apply (density_positive_inside E), Hpos. }
  split; [|split].
  - intros pt Hpt. rewrite <- Heq by done. by apply Hpos.
  - unfold post_prob. apply list_fmap_ext. intros i pt Hpt.
    apply Heq. by apply list_elem_of_lookup_2 with i.
  - unfold post_prob. rewrite Forall_fmap. apply Forall_forall.
    intros pt Hpt. by apply Hpos.
Qed.

Lemma evidence_divisors_positive_witness :
  (∀ g, (F64.zero <=? (np_random_rand table_library g).1)%f64 = true)
  ∧ (F64.zero <? density table_library (start short_script))%f64 = true
  ∧ (0 < traj_length short_script)%nat
  ∧ ∃ st, metropolis table_library short_script = Some st
    ∧ (∀ pt, pt ∈ accepted_traj (trajectory st) (burn_in short_script) →
         (F64.zero <? likelihood pt * prior table_library pt)%f64 = true)
    ∧ post_prob table_library (trajectory st) (burn_in short_script)
      = (λ pt, likelihood pt * prior table_library pt)%f64
        <$> accepted_traj (trajectory st) (burn_in short_script)
    ∧ Forall (λ d, (F64.zero <? d)%f64 = true)
        (post_prob table_library (trajectory st) (burn_in short_script)).
Proof.
  split; [exact table_rand_nonnegative|].
  split; [exact script_start_positive|].
  split; [cbn; lia|].
  apply (evidence_divisors_positive table_library short_script).
  - exact table_rand_nonnegative.
  - exact script_start_positive.
  - cbn; lia.
Defined.

(** ** A start anywhere inside the domain *)

Lemma div_zero_vanishing c : vanishing (F64.zero / c)%f64 = true.
Proof. by destruct c as [[]|[]| |[] m e]. Qed.

Lemma minimum_one_vanishing r :
  vanishing r = true → vanishing (np_minimum F64.one r) = true.
Proof. by destruct r as [[]|[]| |[] m e]. Qed.

Lemma ltb_vanishing u r :
  (F64.zero <=? u)%f64 = true → vanishing r = true → (u <? r)%f64 = false.
Proof.
  by destruct u as [[]|[]| |[] mu eu], r as [[]|[]| |[] m e].
Qed.

(** From inside the domain a proposal does not raise, and it is accepted
    only if it lies inside the domain. *)
Lemma propose_inside E current g :
  (∀ g, (F64.zero <=? (np_random_rand E g).1)%f64 = true) →
  in_domain current = true →
  ∃ prob_accept accept,
    propose E current g
    = Some (vadd current (jump_of E g), prob_accept, accept, after_step E g)
    ∧ (accept = true → in_domain (vadd current (jump_of E g)) = true).
Proof.
  intros Hrand Hin.
  unfold propose, jump_of, after_step, after_jump, target_rel_prob.
  destruct (multivariate_normal E _ _ g) as [jump g1]; cbn [fst snd].
  rewrite Hin. pose proof (Hrand g1) as Hu.
  destruct (in_domain (vadd current jump)) eqn:Hp;
    cbn [true_divide value mbind option_bind];
    destruct (np_random_rand E g1) as [u g2]; cbn [fst snd] in *;
    eexists _, _; (split; [done|]); [done|].
  rewrite ltb_vanishing;
    [done|done|apply minimum_one_vanishing, div_zero_vanishing].
Qed.

Lemma walk_inside E C n :
  (∀ g, (F64.zero <=? (np_random_rand E g).1)%f64 = true) →
  in_domain (start C) = true →
  (n < traj_length C)%nat →
  ∃ st, walk E C n = Some st
    ∧ ∀ i, (i ≤ n)%nat →
        ∃ pt, trajectory st !! i = Some pt ∧ in_domain pt = true.
Proof.
  intros Hrand Hstart. induction n as [|n IH]; intros Hn.
  - unfold walk, initial, setitem, np_zeros. cbn [seq for_each].
    rewrite decide_True by (rewrite length_replicate; lia).
    eexists. split; [done|]. cbn [trajectory]. intros i Hi.
    assert (i = 0)%nat as -> by lia. exists (start C).
    rewrite list_lookup_insert_eq by (rewrite length_replicate; lia). done.
  - destruct (IH ltac:(lia)) as (st & Hw & Hrows).
    destruct (walk_rows E C n st Hw) as [Hlen _].
    destruct (Hrows n ltac:(lia)) as (cur & Hcur & Hin).
    destruct (propose_inside E cur (generator st) Hrand Hin)
      as (pa & acc & Hp & Hacc).
    rewrite walk_S, Hw. cbn [mbind option_bind].
    unfold metropolis_step, getitem. rewrite Hcur. cbn [mbind option_bind].
    rewrite Hp. cbn [mbind option_bind].
    destruct acc; (rewrite setitem_Some by lia); cbn [mbind option_bind];
      (eexists; split; [done|]); cbn [trajectory]; intros i Hi;
      (destruct (decide (i = S n)) as [->|Hne];
       [rewrite Nat.add_1_r, list_lookup_insert_eq by lia
       |rewrite list_lookup_insert_ne by lia; apply Hrows; lia]).
    + eexists. split; [done|]. by apply Hacc.
    + by exists cur.
Qed.

(** X13. A start inside the domain is enough, whatever its density: with
    uniform draws that are not negative the run does not raise, and every
    row of the trajectory lies inside the domain. *)
Theorem inside_start_stays_inside (E : library) (C : config) :
  (∀ g, (F64.zero <=? (np_random_rand E g).1)%f64 = true) →
  in_domain (start C) = true →
  (0 < traj_length C)%nat →
  ∃ st, metropolis E C = Some st
    ∧ length (trajectory st) = traj_length C
    ∧ ∀ i, (i < traj_length C)%nat →
        ∃ pt, trajectory st !! i = Some pt ∧ in_domain pt = true.
Proof.
  intros Hrand Hstart Hlen.
  destruct (walk_inside E C (traj_length C - 1) Hrand Hstart ltac:(lia))
    as (st & Hw & Hrows).
  exists st. split; [exact Hw|].
  split; [by destruct (walk_rows E C _ st Hw)|].
  intros i Hi. apply Hrows. lia.
Qed.

Lemma inside_start_stays_inside_witness :
  (∀ g, (F64.zero <=? (np_random_rand table_library g).1)%f64 = true)
  ∧ in_domain (start edge_start) = true
  ∧ (0 < traj_length edge_start)%nat
  ∧ density table_library (start edge_start) = F64.zero
  ∧ ∃ st, metropolis table_library edge_start = Some st
      ∧ length (trajectory st) = traj_length edge_start
      ∧ ∀ i, (i < traj_length edge_start)%nat →
          ∃ pt, trajectory st !! i = Some pt ∧ in_domain pt = true.
Proof.
  split; [exact table_rand_nonnegative|].
  split; [by vm_compute|]. split; [cbn; lia|]. split; [by vm_compute|].
  apply (inside_start_stays_inside table_library edge_start).
  - exact table_rand_nonnegative.
  - by vm_compute.
  - cbn; lia.
Defined.
